(** * mtg-filter: the card filter of [mtg-filter.py]

    A shallow embedding of [CardFilter] (criterion builder and matcher) and
    the properties of its specification.

    Conventions of the embedding.
    - A Python [str] is a [string]; each character is one code point below
      256 (the Latin-1 range), which is where [str.isnumeric] and [int] are
      modelled exactly.
    - The integer options of the command line ([type = int], default [None])
      are [option Z]; the list options ([nargs = "*"], default [None]) are
      [option (list string)].
    - A Face is a record of the five keys the filter reads.  [None] in
      [colors] or [types] is a missing key (subscription raises [KeyError]);
      [None] in the other three is a missing key or a JSON [null]
      ([dict.get] gives [None] for both).
    - A JSON number is its exact value: a rational for an integer or a
      finite double, or one of the three non-finite doubles.
    - The card mapping is a Python [dict], which keeps insertion order: an
      association list with distinct keys.
    - An exception is a value of [exn]; code that can raise returns a
      [result]. *)

From Stdlib Require Import ZArith QArith String Ascii List Bool Lia.
From stdpp Require Import base decidable option list gmap strings.

Local Open Scope string_scope.
Local Open Scope Z_scope.

(** ** Exceptions *)

Inductive exn : Type :=
| TypeError
| KeyError
| NameError
| ValueError
| OverflowError.

Inductive result (A : Type) : Type :=
| Ok (a : A)
| Raise (e : exn).

Arguments Ok {A} a.
Arguments Raise {A} e.

Definition bind {A B : Type} (m : result A) (k : A -> result B) : result B :=
  match m with
  | Ok a => k a
  | Raise e => Raise e
  end.

Notation "'let*' x := m 'in' k" := (bind m (fun x => k))
  (at level 10, x name, m at level 100, k at level 200).

Definition returns {A : Type} (m : result A) : Prop := exists a, m = Ok a.

(** ** Data model *)

(** A JSON number as [json.load] gives it. *)
Inductive number : Type :=
| Finite (q : Q)
| Infinite (negative : bool)
| NaN.

Record Face : Type := mkFace {
  colors : option (list string);
  types : option (list string);
  power : option string;
  toughness : option string;
  convertedManaCost : option number
}.

(** The namespace [argparse] builds in [main]. *)
Record Args : Type := mkArgs {
  colors_only : option (list string);
  colors_all : option (list string);
  power_min : option Z;
  power_max : option Z;
  tough_min : option Z;
  tough_max : option Z;
  types_only : option (list string);
  types_all : option (list string);
  cmc_min : option Z;
  cmc_max : option Z
}.

Definition no_args : Args :=
  mkArgs None None None None None None None None None None.

(** ** Truth values of Python objects *)

(** [None] and [0] are false. *)
Definition truthy_int (o : option Z) : bool :=
  match o with
  | Some v => negb (v =? 0)
  | None => false
  end.

(** [None] and the empty list are false. *)
Definition truthy_list {A : Type} (o : option (list A)) : bool :=
  match o with
  | Some (_ :: _) => true
  | _ => false
  end.

(** [None] and the empty string are false. *)
Definition truthy_str (o : option string) : bool :=
  match o with
  | Some EmptyString => false
  | Some _ => true
  | None => false
  end.

(** [None], zero of either sign are false; the non-finite doubles are true. *)
Definition truthy_number (o : option number) : bool :=
  match o with
  | Some (Finite q) => negb (Qeq_bool q 0)
  | Some (Infinite _) => true
  | Some NaN => true
  | None => false
  end.

(** [a or d] where [a] is [None] or an integer. *)
Definition or_default (a : option Z) (d : Z) : Z :=
  match a with
  | Some v => if v =? 0 then d else v
  | None => d
  end.

(** ** Built-ins *)

(** [set(xs) <= set(ys)] *)
Definition set_le (xs ys : list string) : bool :=
  bool_decide ((list_to_set xs : gset string) ⊆ list_to_set ys).

(** Code points of the Latin-1 range with a Unicode numeric value: the ten
    decimal digits, the superscripts 2, 3 and 1, and the fractions one
    quarter, one half and three quarters. *)
Definition numeric_char (c : ascii) : bool :=
  let n := N_of_ascii c in
  ((48 <=? n) && (n <=? 57))%N
  || (n =? 178)%N || (n =? 179)%N || (n =? 185)%N
  || (n =? 188)%N || (n =? 189)%N || (n =? 190)%N.

Definition decimal_char (c : ascii) : bool :=
  let n := N_of_ascii c in ((48 <=? n) && (n <=? 57))%N.

Definition digit_value (c : ascii) : Z := Z.of_N (N_of_ascii c) - 48.

(** [s.isnumeric()]: at least one character, and all of them numeric. *)
Definition isnumeric (s : string) : bool :=
  match s with
  | EmptyString => false
  | _ => forallb numeric_char (list_ascii_of_string s)
  end.

(** The most digits [int] converts from a string: the default of
    [sys.get_int_max_str_digits()]. *)
Definition int_max_str_digits : nat := 4300.

(** [int(s)] for a string that [isnumeric] accepted: it has no sign, blank
    or underscore, so the conversion succeeds exactly when every character
    is a decimal digit and there are no more of them than the interpreter
    converts (leading zeros count). *)
Definition int_of_str (s : string) : result Z :=
  let cs := list_ascii_of_string s in
  match cs with
  | [] => Raise ValueError
  | _ =>
    if forallb decimal_char cs
    then
      if (int_max_str_digits <? length cs)%nat then Raise ValueError
      else Ok (fold_left (fun acc c => 10 * acc + digit_value c) cs 0)
    else Raise ValueError
  end.

(** [float(n)] for an integer: the nearest double, ties to the even
    significand; [OverflowError] when that is beyond the largest double.
    The double is returned as the integer it is equal to. *)
Definition float_of_int (n : Z) : result Z :=
  let a := Z.abs n in
  let e := Z.log2 a - 52 in
  if e <=? 0 then Ok n
  else
    let q := Z.shiftr a e in
    let r := Z.land a (Z.ones e) in
    let half := Z.shiftl 1 (e - 1) in
    let q' := if (half <? r) || ((r =? half) && Z.odd q) then q + 1 else q in
    let v := Z.shiftl q' e in
    if 2 ^ 1024 <=? v then Raise OverflowError else Ok (Z.sgn n * v).

(** [a <= x] and [x <= b] between an integer-valued bound and a JSON
    number; every comparison with NaN is false. *)
Definition bound_le_number (a : Z) (x : number) : bool :=
  match x with
  | Finite q => Qle_bool (inject_Z a) q
  | Infinite negative => negb negative
  | NaN => false
  end.

Definition number_le_bound (x : number) (b : Z) : bool :=
  match x with
  | Finite q => Qle_bool q (inject_Z b)
  | Infinite negative => negative
  | NaN => false
  end.

(** ** Criterion builder *)

Definition Predicate : Type := Face -> result bool.

(** [face['colors']], [face['types']] *)
Definition subscript (field : option (list string)) : result (list string) :=
  match field with
  | Some xs => Ok xs
  | None => Raise KeyError
  end.

(** [set(xs)] for an option of the command line: [None] is not iterable. *)
Definition set_of_option (o : option (list string)) : result (list string) :=
  match o with
  | Some xs => Ok xs
  | None => Raise TypeError
  end.

(** The local variables of [from_args] that its lambdas refer to.  A Python
    closure holds the variable, not the value it had when the lambda was
    made: the lambda reads the variable when it is called, after
    [from_args] has returned.  [accepted] is assigned in two places
    (accepted colors, then accepted types) and read by two lambdas. *)
Record Frame : Type := mkFrame {
  accepted : option (list string);
  required : option (list string)
}.

Definition read_var (cell : option (list string)) : result (list string) :=
  match cell with
  | Some xs => Ok xs
  | None => Raise NameError
  end.

Definition Closure : Type := Frame -> Predicate.

(** [lambda face: set(args.colors_all) <= set(face['colors'])] *)
Definition colors_all_check (args : Args) : Closure := fun _ face =>
  let* r := set_of_option (colors_all args) in
  let* cs := subscript (colors face) in
  Ok (set_le r cs).

(** [lambda face: set(face['colors']) <= accepted] *)
Definition colors_only_check : Closure := fun frame face =>
  let* cs := subscript (colors face) in
  let* a := read_var (accepted frame) in
  Ok (set_le cs a).

(** The body shared by [power_check] and [toughness_check]: [lo] and [hi]
    are the two options of the command line, [field] is [face.get(key)]. *)
Definition range_check (lo hi : option Z) (field : option string) : result bool :=
  let p := field in
  let min := if truthy_int lo then lo else None in
  let max := if truthy_int hi then hi else None in
  match p with
  | None => Ok false
  | Some s =>
    if negb (truthy_str p) || negb (isnumeric s) then Ok false
    else
      let* v := int_of_str s in
      Ok ((or_default min 0 <=? v) && (v <=? or_default max 9999))
  end.

Definition power_check (args : Args) : Closure := fun _ face =>
  range_check (power_min args) (power_max args) (power face).

Definition toughness_check (args : Args) : Closure := fun _ face =>
  range_check (tough_min args) (tough_max args) (toughness face).

(** [lambda face: required <= set(face['types'])] *)
Definition types_all_check : Closure := fun frame face =>
  let* r := read_var (required frame) in
  let* ts := subscript (types face) in
  Ok (set_le r ts).

(** [lambda face: set(face['types']) <= accepted] *)
Definition types_only_check : Closure := fun frame face =>
  let* ts := subscript (types face) in
  let* a := read_var (accepted frame) in
  Ok (set_le ts a).

Definition cmc_bound (o : option Z) (d : Z) : result Z :=
  match o with
  | Some v => if truthy_int o then float_of_int v else Ok d
  | None => Ok d
  end.

Definition cmc_check (args : Args) : Closure := fun _ face =>
  let cmc := convertedManaCost face in
  let* min := cmc_bound (cmc_min args) 0 in
  let* max := cmc_bound (cmc_max args) 9999 in
  match cmc with
  | None => Ok false
  | Some x =>
    if negb (truthy_number cmc) then Ok false
    else Ok (bound_le_number min x && number_le_bound x max)
  end.

(** The state of [from_args] while it runs: the list it appends to and its
    frame. *)
Record Builder : Type := mkBuilder {
  built : list Closure;
  frame : Frame
}.

Definition append (c : Closure) (b : Builder) : Builder :=
  mkBuilder (built b ++ [c]) (frame b).

Definition assign_accepted (xs : option (list string)) (b : Builder) : Builder :=
  mkBuilder (built b) (mkFrame xs (required (frame b))).

Definition assign_required (xs : option (list string)) (b : Builder) : Builder :=
  mkBuilder (built b) (mkFrame (accepted (frame b)) xs).

Definition when (c : bool) (f : Builder -> Builder) (b : Builder) : Builder :=
  if c then f b else b.

(** The seven [if] statements of [from_args], in order. *)
Definition build (args : Args) : Builder :=
  let b := mkBuilder [] (mkFrame None None) in
  let b := when (truthy_list (colors_all args))
             (append (colors_all_check args)) b in
  let b := when (truthy_list (colors_only args))
             (fun b => append colors_only_check
                         (assign_accepted (colors_only args) b)) b in
  let b := when (truthy_int (power_min args) || truthy_int (power_max args))
             (append (power_check args)) b in
  let b := when (truthy_int (tough_min args) || truthy_int (tough_max args))
             (append (toughness_check args)) b in
  let b := when (truthy_list (types_all args))
             (fun b => append types_all_check
                         (assign_required (types_all args) b)) b in
  let b := when (truthy_list (types_only args))
             (fun b => append types_only_check
                         (assign_accepted (types_only args) b)) b in
  let b := when (truthy_int (cmc_min args) || truthy_int (cmc_max args))
             (append (cmc_check args)) b in
  b.

(** ** The filter object *)

Record CardFilter : Type := mkCardFilter {
  criteria : option (list Predicate)
}.

(** [__init__]: [self.criteria = criteria if criteria else None] *)
Definition init (cs : list Predicate) : CardFilter :=
  mkCardFilter (match cs with [] => None | _ => Some cs end).

(** [from_args]: the lambdas are called after it has returned, so each
    reads the frame as [build] left it. *)
Definition from_args (args : Args) : CardFilter :=
  let b := build args in
  init (map (fun c => c (frame b)) (built b)).

(** ** Matcher *)

(** [any(not criterion(face) for criterion in cs)] *)
Fixpoint any_fails (cs : list Predicate) (face : Face) : result bool :=
  match cs with
  | [] => Ok false
  | criterion :: cs' =>
    let* ok := criterion face in
    if negb ok then Ok true else any_fails cs' face
  end.

(** [match]: iterating over [None] raises [TypeError]. *)
Definition match_ (self : CardFilter) (face : Face) : result bool :=
  match criteria self with
  | None => Raise TypeError
  | Some cs =>
    let* failed := any_fails cs face in
    Ok (negb failed)
  end.

(** [matches]: the [for] loop with its [else] branch. *)
Fixpoint matches (self : CardFilter) (faces : list Face) : result bool :=
  match faces with
  | [] => Ok false
  | face :: faces' =>
    let* m := match_ self face in
    if m then Ok true else matches self faces'
  end.

Definition CardDict : Type := list (string * list Face).

(** [filter]: the dict comprehension, entry by entry in the order of
    [card_dict.items()]. *)
Fixpoint filter (self : CardFilter) (card_dict : CardDict) : result CardDict :=
  match card_dict with
  | [] => Ok []
  | (name, faces) :: rest =>
    let* keep := matches self faces in
    let* out := filter self rest in
    Ok (if keep then (name, faces) :: out else out)
  end.

(** ** The constraint categories

    One per [if] statement of [from_args]: its guard and the closure it
    appends. *)

Inductive Category : Type :=
| RequiredColors
| AcceptedColors
| PowerRange
| ToughnessRange
| RequiredTypes
| AcceptedTypes
| ManaCostRange.

Definition categories : list Category :=
  [RequiredColors; AcceptedColors; PowerRange; ToughnessRange;
   RequiredTypes; AcceptedTypes; ManaCostRange].

(** The guard of the category's [if] statement. *)
Definition active (args : Args) (c : Category) : bool :=
  match c with
  | RequiredColors => truthy_list (colors_all args)
  | AcceptedColors => truthy_list (colors_only args)
  | PowerRange => truthy_int (power_min args) || truthy_int (power_max args)
  | ToughnessRange => truthy_int (tough_min args) || truthy_int (tough_max args)
  | RequiredTypes => truthy_list (types_all args)
  | AcceptedTypes => truthy_list (types_only args)
  | ManaCostRange => truthy_int (cmc_min args) || truthy_int (cmc_max args)
  end.

(** The option was put on the command line: its value is not [None]. *)
Definition given {A : Type} (o : option A) : bool :=
  match o with
  | Some _ => true
  | None => false
  end.

(** The category was asked for on the command line. *)
Definition requested (args : Args) (c : Category) : bool :=
  match c with
  | RequiredColors => given (colors_all args)
  | AcceptedColors => given (colors_only args)
  | PowerRange => given (power_min args) || given (power_max args)
  | ToughnessRange => given (tough_min args) || given (tough_max args)
  | RequiredTypes => given (types_all args)
  | AcceptedTypes => given (types_only args)
  | ManaCostRange => given (cmc_min args) || given (cmc_max args)
  end.

Definition closure_of (args : Args) (c : Category) : Closure :=
  match c with
  | RequiredColors => colors_all_check args
  | AcceptedColors => colors_only_check
  | PowerRange => power_check args
  | ToughnessRange => toughness_check args
  | RequiredTypes => types_all_check
  | AcceptedTypes => types_only_check
  | ManaCostRange => cmc_check args
  end.

(** The interval a range constraint asks for: the bound when it is given,
    else the default. *)
Definition bound_or (o : option Z) (d : Z) : Z :=
  match o with
  | Some v => v
  | None => d
  end.

(** [lo <= x <= hi] for a JSON number. *)
Definition number_in (lo hi : Z) (x : number) : Prop :=
  match x with
  | Finite q => (inject_Z lo <= q)%Q /\ (q <= inject_Z hi)%Q
  | _ => False
  end.

(** The frame of [from_args] when it returns: the last assignment to
    each variable wins. *)
Definition final_frame (args : Args) : Frame :=
  mkFrame
    (if truthy_list (types_only args) then types_only args
     else if truthy_list (colors_only args) then colors_only args else None)
    (if truthy_list (types_all args) then types_all args else None).

(** The test of the comprehension of [filter] as a boolean: [matches]
    returned, and returned true. *)
Definition kept (self : CardFilter) (e : string * list Face) : bool :=
  match matches self (snd e) with
  | Ok true => true
  | _ => false
  end.

(** A Face on which no criterion raises: it has the two keys that are
    subscripted, and a power or toughness that [isnumeric] accepts is made
    of decimal digits, no more of them than [int] converts. *)
Definition decimal (field : option string) : Prop :=
  forall s, field = Some s -> isnumeric s = true ->
            forallb decimal_char (list_ascii_of_string s) = true /\
            (length (list_ascii_of_string s) <= int_max_str_digits)%nat.

Definition well_formed (face : Face) : Prop :=
  is_Some (colors face) /\ is_Some (types face) /\
  decimal (power face) /\ decimal (toughness face).

(** Bounds of the mana cost that [float] converts exactly. *)
Definition exact_bounds (args : Args) : Prop :=
  Z.abs (bound_or (cmc_min args) 0) < 2 ^ 53 /\
  Z.abs (bound_or (cmc_max args) 0) < 2 ^ 53.

(** ** Sample data *)

Definition forest : Face :=
  mkFace (Some []) (Some ["Land"]) None None (Some (Finite 0)).

Definition bear : Face :=
  mkFace (Some ["R"; "G"]) (Some ["Creature"]) (Some "3") (Some "3")
         (Some (Finite 2)).

(** A face with the given power, toughness and mana cost and no color or
    type. *)
Definition plain (p t : option string) (cmc : option number) : Face :=
  mkFace (Some []) (Some []) p t cmc.

(** [--colors-all R --power-min 2 --power-max 4] *)
Definition red_power_2_4 : Args :=
  mkArgs None (Some ["R"]) (Some 2) (Some 4) None None None None None None.

(** [--colors-only R G --types-only Creature] *)
Definition red_green_creature : Args :=
  mkArgs (Some ["R"; "G"]) None None None None None (Some ["Creature"]) None
         None None.

(** [--power-min 1 --power-max 0] *)
Definition power_1_0 : Args :=
  mkArgs None None (Some 1) (Some 0) None None None None None None.

(** [--tough-min 1 --tough-max 0] *)
Definition tough_1_0 : Args :=
  mkArgs None None None None (Some 1) (Some 0) None None None None.

(** [--cmc-min -1 --cmc-max 5] *)
Definition cmc_m1_5 : Args :=
  mkArgs None None None None None None None None (Some (-1)) (Some 5).

(** [--colors-all R G] *)
Definition red_green : Args :=
  mkArgs None (Some ["R"; "G"]) None None None None None None None None.

(** [--cmc-min 1] *)
Definition cmc_1 : Args :=
  mkArgs None None None None None None None None (Some 1) None.

(** [--cmc-min 1 --cmc-max 0] *)
Definition cmc_1_0 : Args :=
  mkArgs None None None None None None None None (Some 1) (Some 0).

(** [--power-min 0], [--tough-max 0], [--cmc-min 0 --cmc-max 0] *)
Definition power_min_0 : Args :=
  mkArgs None None (Some 0) None None None None None None None.

Definition tough_max_0 : Args :=
  mkArgs None None None None None (Some 0) None None None None.

Definition cmc_0_0 : Args :=
  mkArgs None None None None None None None None (Some 0) (Some 0).

(** ** The matcher over the object store

    The same three methods with the objects they are handed: the card
    mapping, the face lists, the faces and the filter object live in a
    store and are passed by reference.  Nothing in the three methods assigns
    to an attribute, a key or an index; the only object made is the dict of
    the comprehension. *)

Module Store.

Definition loc : Type := nat.

Inductive Obj : Type :=
| OFace (face : Face)
| OList (items : list loc)
| ODict (items : list (string * loc))
| OFilter (self : CardFilter).

Definition M (A : Type) : Type := gmap loc Obj -> result A * gmap loc Obj.

Definition ret {A : Type} (a : A) : M A := fun h => (Ok a, h).

Definition raise {A : Type} (e : exn) : M A := fun h => (Raise e, h).

Definition bindM {A B : Type} (m : M A) (k : A -> M B) : M B := fun h =>
  match m h with
  | (Ok a, h') => k a h'
  | (Raise e, h') => (Raise e, h')
  end.

Notation "'do' x <- m ; k" := (bindM m (fun x => k))
  (at level 10, x name, m at level 100, k at level 200).

Definition lift {A : Type} (r : result A) : M A := fun h => (r, h).

Definition get_face (l : loc) : M Face := fun h =>
  match h !! l with
  | Some (OFace face) => (Ok face, h)
  | _ => (Raise TypeError, h)
  end.

Definition get_list (l : loc) : M (list loc) := fun h =>
  match h !! l with
  | Some (OList items) => (Ok items, h)
  | _ => (Raise TypeError, h)
  end.

Definition get_items (l : loc) : M (list (string * loc)) := fun h =>
  match h !! l with
  | Some (ODict items) => (Ok items, h)
  | _ => (Raise TypeError, h)
  end.

Definition get_self (l : loc) : M CardFilter := fun h =>
  match h !! l with
  | Some (OFilter self) => (Ok self, h)
  | _ => (Raise TypeError, h)
  end.

(** A new object, at an address not in use. *)
Definition alloc (o : Obj) : M loc := fun h =>
  let l := fresh (dom h) in (Ok l, <[l := o]> h).

(** A criterion reads the keys of the face it is given. *)
Definition call (criterion : Predicate) (face : loc) : M bool :=
  do f <- get_face face;
  lift (criterion f).

Fixpoint any_fails (cs : list Predicate) (face : loc) : M bool :=
  match cs with
  | [] => ret false
  | criterion :: cs' =>
    do ok <- call criterion face;
    if negb ok then ret true else any_fails cs' face
  end.

Definition match_ (self : loc) (face : loc) : M bool :=
  do this <- get_self self;
  match criteria this with
  | None => raise TypeError
  | Some cs =>
    do failed <- any_fails cs face;
    ret (negb failed)
  end.

Fixpoint matches_loop (self : loc) (faces : list loc) : M bool :=
  match faces with
  | [] => ret false
  | face :: faces' =>
    do m <- match_ self face;
    if m then ret true else matches_loop self faces'
  end.

Definition matches (self : loc) (faces : loc) : M bool :=
  do fs <- get_list faces;
  matches_loop self fs.

Fixpoint filter_loop (self : loc) (items : list (string * loc))
  : M (list (string * loc)) :=
  match items with
  | [] => ret []
  | (name, faces) :: rest =>
    do keep <- matches self faces;
    do out <- filter_loop self rest;
    ret (if keep then (name, faces) :: out else out)
  end.

Definition filter (self : loc) (card_dict : loc) : M loc :=
  do items <- get_items card_dict;
  do out <- filter_loop self items;
  alloc (ODict out).

(** The values a store holds at a reference. *)
Definition faces_at (h : gmap loc Obj) (l : loc) (faces : list Face) : Prop :=
  exists ls, h !! l = Some (OList ls) /\
             Forall2 (fun fl f => h !! fl = Some (OFace f)) ls faces.

Definition cards_at (h : gmap loc Obj) (l : loc) (cards : CardDict) : Prop :=
  exists items, h !! l = Some (ODict items) /\
    Forall2 (fun i c => fst i = fst c /\ faces_at h (snd i) (snd c)) items cards.

(** A store with one filter object, one face, its list and one card. *)
Definition sample (this : CardFilter) (face : Face) : gmap loc Obj :=
  <[0%nat := OFilter this]>
    (<[1%nat := OFace face]>
       (<[2%nat := OList [1%nat]]>
          (<[3%nat := ODict [("Bear", 2%nat)]]> ∅))).

End Store.

(** ** The driver

    [main] after [parse_args] and [json.load]: [args] is the namespace of
    the command line and [document] is what [data['data']] finds in the
    loaded document ([None] when the document has no such key).  The lines
    it prints are returned with the way it ends. *)
Definition main (args : Args) (document : option CardDict)
  : list string * result unit :=
  let card_filter := from_args args in
  match document with
  | None => ([], Raise KeyError)
  | Some card_dict =>
    match filter card_filter card_dict with
    | Ok filtered_cards => (map fst filtered_cards, Ok tt)
    | Raise e => ([], Raise e)
    end
  end.

(** [--types-all Creature], [--types-only Creature Land],
    [--colors-all G R R], [--cmc-min 1 --cmc-max 3] *)
Definition creature_all : Args :=
  mkArgs None None None None None None None (Some ["Creature"]) None None.

Definition creature_land_only : Args :=
  mkArgs None None None None None None (Some ["Creature"; "Land"]) None
         None None.

Definition green_red_red : Args :=
  mkArgs None (Some ["G"; "R"; "R"]) None None None None None None None None.

Definition cmc_1_3 : Args :=
  mkArgs None None None None None None None None (Some 1) (Some 3).

(** [--power-min -3 --power-max 4] *)
Definition power_m3_4 : Args :=
  mkArgs None None (Some (-3)) (Some 4) None None None None None None.

(** A face without the [colors] key. *)
Definition colorless_key : Face :=
  mkFace None (Some ["Creature"]) (Some "3") (Some "3") (Some (Finite 2)).

(** * Properties *)

(** ** The error monad *)

Lemma bind_Ok {A B : Type} (m : result A) (k : A -> result B) (b : B) :
  bind m k = Ok b <-> exists a, m = Ok a /\ k a = Ok b.
Proof.
  destruct m as [a|e]; simpl; split.
  - eauto.
  - intros (a' & Ha & Hk). congruence.
  - discriminate.
  - intros (a' & Ha & _). discriminate.
Qed.

Lemma returns_Ok {A : Type} (a : A) : returns (Ok a).
Proof. by exists a. Qed.

Lemma not_returns_Raise {A : Type} (e : exn) : ~ returns (@Raise A e).
Proof. intros [a Ha]. discriminate. Qed.

#[local] Hint Resolve returns_Ok : core.

(** ** Sets *)

Lemma set_le_true (xs ys : list string) :
  set_le xs ys = true <->
  (list_to_set xs : gset string) ⊆ list_to_set ys.
Proof. unfold set_le. apply bool_decide_eq_true. Qed.

Lemma set_le_trans (xs ys zs : list string) :
  set_le xs ys = true -> set_le ys zs = true -> set_le xs zs = true.
Proof. rewrite !set_le_true. set_solver. Qed.

(** ** The builder *)

Lemma frame_build (args : Args) : frame (build args) = final_frame args.
Proof.
  unfold build, final_frame, when.
  repeat match goal with |- context [if ?c then _ else _] =>
    destruct c eqn:? end; reflexivity.
Qed.

(** The list [from_args] has built when it returns: the closures of the
    active categories, each once, in the order of the [if] statements. *)
Lemma built_build (args : Args) :
  built (build args) =
  flat_map (fun c => if active args c then [closure_of args c] else [])
           categories.
Proof.
  unfold build, when, categories, active. simpl.
  repeat match goal with |- context [if ?c then _ else _] =>
    destruct c eqn:? end; reflexivity.
Qed.

Lemma criteria_from_args (args : Args) :
  criteria (from_args args) =
  match built (build args) with
  | [] => None
  | cs => Some (map (fun c => c (final_frame args)) cs)
  end.
Proof.
  unfold from_args, init. rewrite frame_build.
  by destruct (built (build args)).
Qed.

Lemma inactive_built (args : Args) :
  (forall c, active args c = false) -> built (build args) = [].
Proof.
  intros H. rewrite built_build. unfold categories. cbn [flat_map].
  by rewrite !H.
Qed.

Lemma inactive_criteria (args : Args) :
  (forall c, active args c = false) -> criteria (from_args args) = None.
Proof.
  intros H. rewrite criteria_from_args. by rewrite inactive_built.
Qed.

(** ** The matcher *)

Lemma match_None (self : CardFilter) (face : Face) :
  criteria self = None -> match_ self face = Raise TypeError.
Proof. intros H. unfold match_. by rewrite H. Qed.

Lemma matches_None (self : CardFilter) (face : Face) (faces : list Face) :
  criteria self = None -> matches self (face :: faces) = Raise TypeError.
Proof. intros H. simpl. by rewrite match_None. Qed.

Lemma filter_None (self : CardFilter) (name : string) (face : Face)
    (faces : list Face) (rest : CardDict) :
  criteria self = None ->
  filter self ((name, face :: faces) :: rest) = Raise TypeError.
Proof. intros H. simpl. by rewrite match_None. Qed.

(** Without criteria, a card of no face is dropped and any other card
    stops the filter. *)
Lemma filter_None_all (self : CardFilter) (card_dict : CardDict) :
  criteria self = None ->
  filter self card_dict =
  if forallb (fun e => match snd e with [] => true | _ => false end) card_dict
  then Ok [] else Raise TypeError.
Proof.
  intros H. induction card_dict as [|[name faces] rest IH]; [done|].
  destruct faces as [|face faces].
  - simpl. simpl in IH. rewrite IH.
    by destruct (forallb _ rest).
  - by rewrite filter_None.
Qed.

(** With the empty list itself for Criterion Set, [match] accepts every
    Face and [filter] keeps every card that has a face: the matcher is not
    what stands in the way when no constraint is given. *)
Lemma match_empty_list (face : Face) :
  match_ (mkCardFilter (Some [])) face = Ok true.
Proof. reflexivity. Qed.

Lemma filter_empty_list (card_dict : CardDict) :
  filter (mkCardFilter (Some [])) card_dict
  = Ok (List.filter (fun e => match snd e with [] => false | _ => true end)
                    card_dict).
Proof.
  induction card_dict as [|[name faces] rest IH]; [done|].
  simpl. rewrite IH. by destruct faces.
Qed.

(** C1, at the code: with no option on the command line [from_args] hands
    an empty list to [__init__], which stores [None] in its place; [match]
    then raises [TypeError] on every Face, and [filter] raises it on every
    mapping whose first card has a face, the one-card mapping of Forest
    among them, where the specification has the mapping returned
    unchanged. *)
Theorem no_constraint_filter_raises :
  criteria (from_args no_args) = None /\
  (forall face, match_ (from_args no_args) face = Raise TypeError) /\
  (forall name face faces rest,
     filter (from_args no_args) ((name, face :: faces) :: rest)
     = Raise TypeError) /\
  filter (from_args no_args) [("Forest", [forest])] = Raise TypeError.
Proof.
  assert (H : criteria (from_args no_args) = None) by reflexivity.
  split; [exact H|]. split; [|split].
  - intros face. by apply match_None.
  - intros. by apply filter_None.
  - by apply filter_None.
Qed.

Lemma matches_true_inv (self : CardFilter) (faces : list Face) :
  matches self faces = Ok true ->
  Exists (fun face => match_ self face = Ok true) faces.
Proof.
  induction faces as [|face faces IH]; simpl; [discriminate|].
  intros H. apply bind_Ok in H as (m & Hm & H).
  destruct m.
  - left. exact Hm.
  - right. by apply IH.
Qed.

Lemma matches_returns (self : CardFilter) (faces : list Face) :
  Forall (fun face => returns (match_ self face)) faces ->
  exists b, matches self faces = Ok b /\
            (b = true <-> Exists (fun face => match_ self face = Ok true) faces).
Proof.
  induction 1 as [|face faces [m Hm] _ (b & Hb & IH)]; simpl.
  - exists false. split; [done|]. split; [discriminate|].
    intros H. inversion H.
  - rewrite Hm. simpl. destruct m.
    + exists true. split; [done|]. split; [|done]. intros _. by left.
    + exists b. split; [done|]. rewrite IH. split.
      * intros H. by right.
      * intros H. inversion H as [? ? H1|]; [congruence|done].
Qed.

(** C5: [matches] of no face is false; when [match] returns on each face
    of the card, [matches] returns, and it is true exactly when [match] is
    true of one face at least.  (Whenever [matches] is true, some face
    matches, with no condition.) *)
Theorem matches_iff_a_face_matches (self : CardFilter) (faces : list Face) :
  matches self [] = Ok false /\
  (matches self faces = Ok true ->
   Exists (fun face => match_ self face = Ok true) faces) /\
  (Forall (fun face => returns (match_ self face)) faces ->
   exists b, matches self faces = Ok b /\
     (b = true <-> Exists (fun face => match_ self face = Ok true) faces)).
Proof.
  split; [done|]. split.
  - apply matches_true_inv.
  - apply matches_returns.
Qed.

Lemma filter_Ok_inv (self : CardFilter) (card_dict out : CardDict) :
  filter self card_dict = Ok out ->
  Forall (fun e => returns (matches self (snd e))) card_dict.
Proof.
  revert out. induction card_dict as [|[name faces] rest IH]; intros out H.
  - constructor.
  - simpl in H. apply bind_Ok in H as (keep & Hk & H).
    apply bind_Ok in H as (out' & Hout & _).
    constructor; [by exists keep|by eapply IH].
Qed.

Lemma filter_returns (self : CardFilter) (card_dict : CardDict) :
  Forall (fun e => returns (matches self (snd e))) card_dict ->
  filter self card_dict = Ok (List.filter (kept self) card_dict).
Proof.
  induction 1 as [|[name faces] rest [keep Hk] _ IH]; [done|].
  simpl in Hk. simpl. rewrite Hk, IH. simpl.
  unfold kept. simpl. rewrite Hk. by destruct keep.
Qed.

Lemma filter_sublist {A : Type} (f : A -> bool) (l : list A) :
  List.filter f l `sublist_of` l.
Proof.
  induction l as [|x l IH]; simpl; [constructor|].
  destruct (f x); by constructor.
Qed.

(** C6: when [matches] returns on every card, [filter] returns the
    entries of the input on which it is true, and only those, each with
    the face sequence it had, in the order of the input; the names of the
    output are distinct as those of the input are. *)
Theorem filter_is_ordered_restriction (self : CardFilter) (card_dict : CardDict) :
  Forall (fun e => returns (matches self (snd e))) card_dict ->
  exists out,
    filter self card_dict = Ok out /\
    out = List.filter (kept self) card_dict /\
    out `sublist_of` card_dict /\
    (forall name faces,
       (name, faces) ∈ out <->
       (name, faces) ∈ card_dict /\ matches self faces = Ok true) /\
    (NoDup (map fst card_dict) -> NoDup (map fst out)).
Proof.
  intros H. exists (List.filter (kept self) card_dict).
  split; [by apply filter_returns|]. split; [done|].
  split; [apply filter_sublist|]. split.
  - intros name faces. rewrite !list_elem_of_In, filter_In.
    unfold kept. simpl. split; intros [Hin Hm]; split; try done.
    + destruct (matches self faces) as [[]|]; done.
    + by rewrite Hm.
  - intros Hnd. apply (sublist_NoDup _ (map fst card_dict)); [exact Hnd|].
    apply (fmap_sublist fst). apply filter_sublist.
Qed.

(** ** Accepted colors and accepted types share a variable

    Both lambdas read [accepted], which holds the accepted types once
    [from_args] has run past its sixth [if]: with both options given, the
    accepted-colors predicate compares the colors of the Face with the
    accepted types. *)

Lemma accepted_is_last_assigned (args : Args) :
  truthy_list (types_only args) = true ->
  accepted (frame (build args)) = types_only args.
Proof. intros H. rewrite frame_build. unfold final_frame. by rewrite H. Qed.

Lemma accepted_colors_reads_accepted_types :
  criteria (from_args red_green_creature)
  = Some [colors_only_check (final_frame red_green_creature);
          types_only_check (final_frame red_green_creature)] /\
  colors_only_check (final_frame red_green_creature) bear = Ok false /\
  match_ (from_args red_green_creature) bear = Ok false.
Proof. repeat split; reflexivity. Qed.

(** ** Required colors *)

Lemma colors_all_check_true (args : Args) (fr : Frame) (face : Face)
    (R : list string) :
  colors_all args = Some R ->
  colors_all_check args fr face = Ok true <->
  exists cs, colors face = Some cs /\
             (list_to_set R : gset string) ⊆ list_to_set cs.
Proof.
  intros HR. unfold colors_all_check. rewrite HR. simpl.
  destruct (colors face) as [cs|]; simpl.
  - split.
    + intros H. exists cs. split; [done|]. apply set_le_true. congruence.
    + intros (cs' & [= <-] & H). f_equal. by apply set_le_true.
  - split; [discriminate|]. by intros (cs & ? & _).
Qed.

Lemma head_required_colors (args : Args) :
  truthy_list (colors_all args) = true ->
  exists rest,
    criteria (from_args args)
    = Some (colors_all_check args (final_frame args) :: rest).
Proof.
  intros H. rewrite criteria_from_args, built_build.
  unfold categories. cbn [flat_map active]. rewrite H. simpl. eauto.
Qed.

Lemma truthy_list_cons {A : Type} (o : option (list A)) (l : list A) :
  o = Some l -> l <> [] -> truthy_list o = true.
Proof. intros -> Hl. by destruct l. Qed.

(** C7: when the required colors [R] are given (and are not the empty
    list), the first predicate of the Criterion Set accepts a Face exactly
    when [R] is included in the colors of the Face; and acceptance under a
    larger required set [R'] gives acceptance under [R]. *)
Theorem required_colors_subset_antitone (args : Args) (R : list string) :
  colors_all args = Some R -> R <> [] ->
  exists p rest,
    criteria (from_args args) = Some (p :: rest) /\
    (forall face,
       p face = Ok true <->
       exists cs, colors face = Some cs /\
                  (list_to_set R : gset string) ⊆ list_to_set cs) /\
    (forall args' R' p' rest' face,
       colors_all args' = Some R' ->
       (list_to_set R : gset string) ⊆ list_to_set R' ->
       criteria (from_args args') = Some (p' :: rest') ->
       p' face = Ok true -> p face = Ok true).
Proof.
  intros HR Hne.
  destruct (head_required_colors args) as [rest Hrest];
    [by eapply truthy_list_cons|].
  exists (colors_all_check args (final_frame args)), rest.
  split; [done|]. split.
  - intros face. by apply colors_all_check_true.
  - intros args' R' p' rest' face HR' Hsub Hc Hp'.
    assert (Hne' : R' <> []).
    { intros ->. destruct R as [|x R]; [done|]. set_solver. }
    destruct (head_required_colors args') as [rest'' Hrest''];
      [by eapply truthy_list_cons|].
    rewrite Hrest'' in Hc. injection Hc as <- _.
    apply (colors_all_check_true _ _ _ _ HR') in Hp' as (cs & Hcs & Hsub').
    apply (colors_all_check_true _ _ _ _ HR). exists cs. split; [done|].
    set_solver.
Qed.

(** ** Ranges of power and toughness *)

Lemma or_default_truthy (o : option Z) (d : Z) :
  or_default (if truthy_int o then o else None) d = or_default o d.
Proof.
  destruct o as [v|]; simpl; [|done].
  by destruct (v =? 0) eqn:E; simpl; rewrite ?E.
Qed.

Lemma isnumeric_forallb (s : string) :
  isnumeric s = true -> forallb numeric_char (list_ascii_of_string s) = true.
Proof. by destruct s. Qed.

Lemma isnumeric_false (s : string) (c : ascii) :
  In c (list_ascii_of_string s) -> numeric_char c = false ->
  isnumeric s = false.
Proof.
  intros Hin Hc. destruct (isnumeric s) eqn:E; [|done].
  apply isnumeric_forallb in E.
  rewrite forallb_forall in E. specialize (E c Hin). congruence.
Qed.

Lemma range_check_absent (lo hi : option Z) : range_check lo hi None = Ok false.
Proof. done. Qed.

Lemma range_check_not_numeric (lo hi : option Z) (s : string) :
  isnumeric s = false -> range_check lo hi (Some s) = Ok false.
Proof.
  intros H. unfold range_check. rewrite H. simpl.
  by rewrite orb_true_r.
Qed.

(** What [range_check] accepts, with the bounds as the code takes them:
    a bound of [0] counts as a bound that was not given. *)
Lemma range_check_true (lo hi : option Z) (field : option string) :
  range_check lo hi field = Ok true <->
  exists s v, field = Some s /\ isnumeric s = true /\ int_of_str s = Ok v /\
              or_default lo 0 <= v <= or_default hi 9999.
Proof.
  unfold range_check. rewrite !or_default_truthy.
  destruct field as [s|]; [|split; [discriminate|by intros (?&?&?&_)]].
  destruct (isnumeric s) eqn:Hn.
  - assert (truthy_str (Some s) = true) as -> by by destruct s.
    simpl. split.
    + intros H. apply bind_Ok in H as (v & Hv & H).
      exists s, v. repeat split; try done; injection H as H;
        apply andb_true_iff in H as [H1 H2]; lia.
    + intros (s' & v & [= <-] & _ & Hv & H1 & H2). rewrite Hv. simpl.
      f_equal. apply andb_true_iff. split; lia.
  - rewrite orb_true_r. split; [discriminate|].
    intros (s' & v & [= <-] & ? & _). congruence.
Qed.

(** A numeric character that is not a decimal digit (here the
    superscript two, code point 178) passes [isnumeric] and stops [int]:
    the check raises, it neither accepts nor rejects. *)
Lemma superscript_two_raises (lo hi : option Z) :
  range_check lo hi (Some (String (ascii_of_N 178) EmptyString))
  = Raise ValueError.
Proof. reflexivity. Qed.

(** C9: a power (or toughness) string with a character that has no
    numeric value is rejected whatever the bounds are; so are the strings
    of a negative number, of a decimal fraction, of a star and of a sum
    with a star. *)
Theorem non_numeric_field_rejected (args : Args) (fr : Frame) (face : Face)
    (s : string) (c : ascii) :
  In c (list_ascii_of_string s) -> numeric_char c = false ->
  (power face = Some s -> power_check args fr face = Ok false) /\
  (toughness face = Some s -> toughness_check args fr face = Ok false) /\
  (forall lo hi s', In s' ["-1"; "1.5"; "*"; "2+*"] ->
     range_check lo hi (Some s') = Ok false).
Proof.
  intros Hin Hc. split; [|split].
  - intros Hp. unfold power_check. rewrite Hp.
    apply range_check_not_numeric. by eapply isnumeric_false.
  - intros Ht. unfold toughness_check. rewrite Ht.
    apply range_check_not_numeric. by eapply isnumeric_false.
  - intros lo hi s' Hs'. apply range_check_not_numeric.
    simpl in Hs'. by destruct Hs' as [<-|[<-|[<-|[<-|[]]]]].
Qed.

Lemma non_numeric_field_rejected_witness :
  In "-"%char (list_ascii_of_string "-1") /\ numeric_char "-" = false /\
  power (plain (Some "-1") (Some "-1") None) = Some "-1" /\
  toughness (plain (Some "-1") (Some "-1") None) = Some "-1" /\
  In "1.5" ["-1"; "1.5"; "*"; "2+*"] /\
  power_check power_1_0 (final_frame power_1_0)
              (plain (Some "-1") (Some "-1") None) = Ok false /\
  toughness_check tough_1_0 (final_frame tough_1_0)
              (plain (Some "-1") (Some "-1") None) = Ok false /\
  range_check (Some 1) (Some 2) (Some "1.5") = Ok false.
Proof.
  assert (Hin : In "-"%char (list_ascii_of_string "-1")) by (simpl; auto).
  assert (Hc : numeric_char "-" = false) by reflexivity.
  assert (Hs : In "1.5" ["-1"; "1.5"; "*"; "2+*"]) by (simpl; auto).
  split; [exact Hin|]. split; [exact Hc|]. split; [reflexivity|].
  split; [reflexivity|]. split; [exact Hs|].
  split; [|split].
  - exact (proj1 (non_numeric_field_rejected power_1_0 (final_frame power_1_0)
                    (plain (Some "-1") (Some "-1") None) "-1" "-" Hin Hc)
                 eq_refl).
  - exact (proj1 (proj2 (non_numeric_field_rejected tough_1_0
                    (final_frame tough_1_0)
                    (plain (Some "-1") (Some "-1") None) "-1" "-" Hin Hc))
                 eq_refl).
  - exact (proj2 (proj2 (non_numeric_field_rejected power_1_0
                    (final_frame power_1_0)
                    (plain (Some "-1") (Some "-1") None) "-1" "-" Hin Hc))
                 (Some 1) (Some 2) "1.5" Hs).
Defined.

(** C4, at the code: with [--power-min 1 --power-max 0] a Face of power
    ["500"] is accepted, and with [--tough-min 1 --tough-max 0] a Face of
    toughness ["500"]; 500 is not in the interval from 1 to 0 that the
    specification gives. *)
Theorem zero_max_range_accepts_500 :
  match_ (from_args power_1_0) (plain (Some "500") None None) = Ok true /\
  match_ (from_args tough_1_0) (plain None (Some "500") None) = Ok true /\
  int_of_str "500" = Ok 500 /\
  ~ (bound_or (Some 1) 0 <= 500 <= bound_or (Some 0) 9999).
Proof.
  repeat split; try reflexivity. simpl. lia.
Qed.

(** ** Range of mana cost *)

(** [float] is exact on the integers a double holds exactly. *)
Lemma float_of_int_exact (n : Z) :
  Z.abs n < 2 ^ 53 -> float_of_int n = Ok n.
Proof.
  intros H. unfold float_of_int.
  assert (Z.log2 (Z.abs n) - 52 <= 0) as ->%Z.leb_le; [|done].
  destruct (Z.eq_dec (Z.abs n) 0) as [->|Hn]; [done|].
  assert (Z.log2 (Z.abs n) < 53); [|lia].
  apply Z.log2_lt_pow2; lia.
Qed.

Lemma cmc_bound_exact (o : option Z) (d : Z) :
  Z.abs (bound_or o 0) < 2 ^ 53 -> cmc_bound o d = Ok (or_default o d).
Proof.
  destruct o as [v|]; simpl; [|done].
  intros H. destruct (v =? 0); simpl; [done|].
  by apply float_of_int_exact.
Qed.

(** A cost of zero is never accepted; the only other outcome is the
    [OverflowError] of a bound beyond the doubles. *)
Lemma cmc_check_zero (args : Args) (fr : Frame) (face : Face) (q : Q) :
  convertedManaCost face = Some (Finite q) -> (q == 0)%Q ->
  cmc_check args fr face = Ok false \/
  cmc_check args fr face = Raise OverflowError.
Proof.
  intros Hc Hq. unfold cmc_check. rewrite Hc.
  assert (truthy_number (Some (Finite q)) = false) as ->.
  { simpl. apply negb_false_iff. by apply Qeq_bool_iff. }
  assert (Hb : forall o d, (exists v, cmc_bound o d = Ok v) \/
                           cmc_bound o d = Raise OverflowError).
  { intros o d. unfold cmc_bound, float_of_int.
    repeat case_match; eauto. }
  destruct (Hb (cmc_min args) 0) as [[lo ->]| ->]; simpl; [|by right].
  destruct (Hb (cmc_max args) 9999) as [[hi ->]| ->]; simpl; [by left|by right].
Qed.

Lemma cmc_check_absent (args : Args) (fr : Frame) (face : Face) :
  convertedManaCost face = None ->
  cmc_check args fr face = Ok false \/
  cmc_check args fr face = Raise OverflowError.
Proof.
  intros Hc. unfold cmc_check. rewrite Hc.
  assert (Hb : forall o d, (exists v, cmc_bound o d = Ok v) \/
                           cmc_bound o d = Raise OverflowError).
  { intros o d. unfold cmc_bound, float_of_int.
    repeat case_match; eauto. }
  destruct (Hb (cmc_min args) 0) as [[lo ->]| ->]; simpl; [|by right].
  destruct (Hb (cmc_max args) 9999) as [[hi ->]| ->]; simpl; [by left|by right].
Qed.

(** What [cmc_check] accepts, with the bounds as the code takes them (a
    bound of [0] counts as a bound that was not given), for bounds that
    [float] converts exactly. *)
Lemma cmc_check_true (args : Args) (fr : Frame) (face : Face) :
  Z.abs (bound_or (cmc_min args) 0) < 2 ^ 53 ->
  Z.abs (bound_or (cmc_max args) 0) < 2 ^ 53 ->
  cmc_check args fr face = Ok true <->
  exists q, convertedManaCost face = Some (Finite q) /\ ~ (q == 0)%Q /\
            (inject_Z (or_default (cmc_min args) 0) <= q)%Q /\
            (q <= inject_Z (or_default (cmc_max args) 9999))%Q.
Proof.
  intros Hlo Hhi. unfold cmc_check.
  rewrite !cmc_bound_exact by done. simpl.
  destruct (convertedManaCost face) as [[q|neg|]|]; simpl.
  - destruct (Qeq_bool q 0) eqn:E; simpl.
    + apply Qeq_bool_iff in E. split; [discriminate|].
      by intros (q' & [= <-] & Hq & _).
    + split.
      * intros [= H]. apply andb_true_iff in H as [H1 H2].
        apply Qle_bool_iff in H1, H2. exists q. repeat split; try done.
        intros Hq. apply Qeq_bool_iff in Hq. congruence.
      * intros (q' & [= <-] & _ & H1 & H2). f_equal.
        apply andb_true_iff. by rewrite !Qle_bool_iff.
  - split; [|by intros (q & ? & _)]. by destruct neg.
  - split; [discriminate|by intros (q & ? & _)].
  - split; [discriminate|by intros (q & ? & _)].
Qed.

(** C10: a maximum of [0] on the command line gives the predicate the
    upper bound 9999 of a maximum that was not given, for power, toughness
    and mana cost alike: with such a maximum each check accepts exactly
    the values between the minimum and 9999.  With a minimum of 1 and a
    maximum of 0 a Face of power (toughness, mana cost) 500 is accepted,
    as is one of 9999, and one of 10000 is rejected. *)
Theorem zero_max_replaced_by_default (args args' : Args) (fr : Frame)
    (face : Face) :
  (power_max args = Some 0 ->
   (power_check args fr face = Ok true <->
    exists s v, power face = Some s /\ isnumeric s = true /\
                int_of_str s = Ok v /\
                or_default (power_min args) 0 <= v <= 9999)) /\
  (tough_max args = Some 0 ->
   (toughness_check args fr face = Ok true <->
    exists s v, toughness face = Some s /\ isnumeric s = true /\
                int_of_str s = Ok v /\
                or_default (tough_min args) 0 <= v <= 9999)) /\
  (cmc_max args = Some 0 -> Z.abs (bound_or (cmc_min args) 0) < 2 ^ 53 ->
   (cmc_check args fr face = Ok true <->
    exists q, convertedManaCost face = Some (Finite q) /\ ~ (q == 0)%Q /\
              (inject_Z (or_default (cmc_min args) 0) <= q)%Q /\
              (q <= inject_Z 9999)%Q)) /\
  (cmc_max args = Some 0 -> cmc_check args fr face = Ok true ->
   exists q, convertedManaCost face = Some (Finite q) /\
             (q <= inject_Z 9999)%Q) /\
  (cmc_max args = Some 0 -> cmc_max args' = None ->
   cmc_min args' = cmc_min args ->
   cmc_check args fr face = cmc_check args' fr face) /\
  cmc_bound (Some 0) 9999 = Ok 9999 /\
  match_ (from_args power_1_0) (plain (Some "500") None None) = Ok true /\
  match_ (from_args tough_1_0) (plain None (Some "500") None) = Ok true /\
  match_ (from_args cmc_1_0) (plain None None (Some (Finite 500))) = Ok true /\
  match_ (from_args power_1_0) (plain (Some "9999") None None) = Ok true /\
  match_ (from_args tough_1_0) (plain None (Some "9999") None) = Ok true /\
  match_ (from_args cmc_1_0) (plain None None (Some (Finite 9999))) = Ok true /\
  match_ (from_args power_1_0) (plain (Some "10000") None None) = Ok false /\
  match_ (from_args tough_1_0) (plain None (Some "10000") None) = Ok false /\
  match_ (from_args cmc_1_0) (plain None None (Some (Finite 10000)))
  = Ok false.
Proof.
  split; [|split; [|split; [|split; [|split]]]].
  - intros H. unfold power_check. rewrite range_check_true, H. done.
  - intros H. unfold toughness_check. rewrite range_check_true, H. done.
  - intros H Hlo. rewrite cmc_check_true; [|done|by rewrite H].
    by rewrite H.
  - intros H. unfold cmc_check. rewrite H.
    change (cmc_bound (Some 0) 9999) with (@Ok Z 9999).
    destruct (cmc_bound (cmc_min args) 0) as [lo|e]; simpl; [|discriminate].
    destruct (convertedManaCost face) as [[q|neg|]|]; simpl;
      try discriminate.
    + destruct (negb (Qeq_bool q 0)); simpl; [|discriminate].
      intros [= Hq]. apply andb_true_iff in Hq as [_ Hq].
      exists q. split; [done|]. by apply Qle_bool_iff.
    + by destruct neg.
  - intros H H' Hmin. unfold cmc_check. by rewrite H, H', Hmin.
  - repeat split; reflexivity.
Qed.

Lemma zero_max_replaced_by_default_witness :
  power_max power_1_0 = Some 0 /\
  tough_max tough_1_0 = Some 0 /\
  cmc_max cmc_1_0 = Some 0 /\ cmc_max cmc_1 = None /\
  cmc_min cmc_1 = cmc_min cmc_1_0 /\
  Z.abs (bound_or (cmc_min cmc_1_0) 0) < 2 ^ 53 /\
  cmc_check cmc_1_0 (final_frame cmc_1_0)
            (plain None None (Some (Finite 500))) = Ok true /\
  (power_check power_1_0 (final_frame power_1_0)
               (plain (Some "500") None None) = Ok true <->
   exists s v, power (plain (Some "500") None None) = Some s /\
               isnumeric s = true /\ int_of_str s = Ok v /\
               or_default (power_min power_1_0) 0 <= v <= 9999) /\
  (toughness_check tough_1_0 (final_frame tough_1_0)
               (plain None (Some "500") None) = Ok true <->
   exists s v, toughness (plain None (Some "500") None) = Some s /\
               isnumeric s = true /\ int_of_str s = Ok v /\
               or_default (tough_min tough_1_0) 0 <= v <= 9999) /\
  (cmc_check cmc_1_0 (final_frame cmc_1_0)
             (plain None None (Some (Finite 500))) = Ok true <->
   exists q, convertedManaCost (plain None None (Some (Finite 500)))
             = Some (Finite q) /\ ~ (q == 0)%Q /\
             (inject_Z (or_default (cmc_min cmc_1_0) 0) <= q)%Q /\
             (q <= inject_Z 9999)%Q) /\
  (exists q, convertedManaCost (plain None None (Some (Finite 500)))
             = Some (Finite q) /\ (q <= inject_Z 9999)%Q) /\
  cmc_check cmc_1_0 (final_frame cmc_1_0)
            (plain None None (Some (Finite 500)))
  = cmc_check cmc_1 (final_frame cmc_1_0)
              (plain None None (Some (Finite 500))).
Proof.
  assert (Hexact : Z.abs (bound_or (cmc_min cmc_1_0) 0) < 2 ^ 53)
    by reflexivity.
  assert (Hacc : cmc_check cmc_1_0 (final_frame cmc_1_0)
                   (plain None None (Some (Finite 500))) = Ok true)
    by reflexivity.
  do 5 (split; [reflexivity|]).
  split; [exact Hexact|]. split; [exact Hacc|].
  split; [|split; [|split; [|split]]].
  - exact (proj1 (zero_max_replaced_by_default power_1_0 power_1_0
                    (final_frame power_1_0) (plain (Some "500") None None))
                 eq_refl).
  - exact (proj1 (proj2 (zero_max_replaced_by_default tough_1_0 tough_1_0
                    (final_frame tough_1_0) (plain None (Some "500") None)))
                 eq_refl).
  - exact (proj1 (proj2 (proj2 (zero_max_replaced_by_default cmc_1_0 cmc_1
                    (final_frame cmc_1_0)
                    (plain None None (Some (Finite 500))))))
                 eq_refl Hexact).
  - exact (proj1 (proj2 (proj2 (proj2 (zero_max_replaced_by_default cmc_1_0
                    cmc_1 (final_frame cmc_1_0)
                    (plain None None (Some (Finite 500)))))))
                 eq_refl Hacc).
  - exact (proj1 (proj2 (proj2 (proj2 (proj2 (zero_max_replaced_by_default
                    cmc_1_0 cmc_1 (final_frame cmc_1_0)
                    (plain None None (Some (Finite 500))))))))
                 eq_refl eq_refl eq_refl).
Defined.

(** C2, at the code: a Face of mana cost 0 is rejected, as specified, here
    with [--cmc-min -1 --cmc-max 5], an interval that holds 0; but with
    [--cmc-min 1 --cmc-max 0] a Face of mana cost 5 is accepted, and 5 is
    not in the interval from 1 to 0 that the specification gives. *)
Theorem zero_cmc_max_accepts_5 :
  match_ (from_args cmc_m1_5) (plain None None (Some (Finite 0))) = Ok false /\
  number_in (bound_or (cmc_min cmc_m1_5) 0) (bound_or (cmc_max cmc_m1_5) 9999)
            (Finite 0) /\
  match_ (from_args cmc_1_0) (plain None None (Some (Finite 5))) = Ok true /\
  ~ number_in (bound_or (cmc_min cmc_1_0) 0) (bound_or (cmc_max cmc_1_0) 9999)
              (Finite 5).
Proof.
  split; [reflexivity|]. split; [|split; [reflexivity|]].
  - simpl. split; by apply Qle_bool_iff.
  - simpl. intros [_ H]. apply Qle_bool_iff in H. discriminate.
Qed.

(** C3, at the code: a bound of [0] on the command line is a falsy value
    for the guards of the three ranges; with [--power-min 0], with
    [--tough-max 0] and with [--cmc-min 0 --cmc-max 0] the range was asked
    for, no predicate is built and the Criterion Set is [None]. *)
Theorem zero_bound_builds_no_predicate :
  requested power_min_0 PowerRange = true /\
  built (build power_min_0) = [] /\
  criteria (from_args power_min_0) = None /\
  requested tough_max_0 ToughnessRange = true /\
  built (build tough_max_0) = [] /\
  criteria (from_args tough_max_0) = None /\
  requested cmc_0_0 ManaCostRange = true /\
  built (build cmc_0_0) = [] /\
  criteria (from_args cmc_0_0) = None.
Proof. repeat split; reflexivity. Qed.

(** One predicate for each category whose guard holds, none for the
    others. *)
Lemma length_built (args : Args) :
  length (built (build args))
  = length (List.filter (active args) categories).
Proof.
  rewrite built_build. unfold categories. cbn [flat_map List.filter].
  repeat match goal with |- context [if ?c then _ else _] =>
    destruct c eqn:? end; reflexivity.
Qed.

(** ** When the matcher returns

    [match] raises on a Face without [colors] or [types] when a criterion
    reads the key, on a numeric power or toughness that is not decimal
    ([int] refuses a superscript or a fraction) or has more digits than
    [int] converts, on a mana-cost bound
    beyond the doubles, and when there is no criterion at all.  On other
    inputs it returns. *)

Lemma int_of_str_returns (s : string) :
  isnumeric s = true ->
  forallb decimal_char (list_ascii_of_string s) = true ->
  (length (list_ascii_of_string s) <= int_max_str_digits)%nat ->
  returns (int_of_str s).
Proof.
  intros Hn Hd Hlen. unfold int_of_str. rewrite Hd.
  apply Nat.ltb_ge in Hlen. rewrite Hlen.
  destruct s; [discriminate|]. simpl. eauto.
Qed.

Lemma range_check_returns (lo hi : option Z) (field : option string) :
  decimal field -> returns (range_check lo hi field).
Proof.
  intros Hd. unfold range_check.
  destruct field as [s|]; [|eauto].
  destruct (isnumeric s) eqn:Hn.
  - destruct (Hd s eq_refl Hn) as [Hdec Hlen].
    destruct (int_of_str_returns s Hn Hdec Hlen) as [v ->].
    destruct (truthy_str (Some s)); simpl; eauto.
  - rewrite orb_true_r. eauto.
Qed.

Lemma closure_returns (args : Args) (c : Category) (face : Face) :
  active args c = true -> well_formed face -> exact_bounds args ->
  returns (closure_of args c (final_frame args) face).
Proof.
  intros Ha ([cs Hcs] & [ts Hts] & Hp & Ht) [Hlo Hhi].
  destruct c; simpl in *.
  - unfold colors_all_check. rewrite Hcs.
    destruct (colors_all args); [simpl; eauto|discriminate].
  - unfold colors_only_check, final_frame. rewrite Hcs, Ha. simpl.
    destruct (truthy_list (types_only args)) eqn:E.
    + destruct (types_only args); [simpl; eauto|discriminate].
    + destruct (colors_only args); [simpl; eauto|discriminate].
  - by apply range_check_returns.
  - by apply range_check_returns.
  - unfold types_all_check, final_frame. rewrite Hts, Ha. simpl.
    destruct (types_all args); [simpl; eauto|discriminate].
  - unfold types_only_check, final_frame. rewrite Hts, Ha. simpl.
    destruct (types_only args); [simpl; eauto|discriminate].
  - unfold cmc_check. rewrite !cmc_bound_exact by done. simpl.
    destruct (convertedManaCost face) as [x|]; [|eauto].
    destruct (negb (truthy_number (Some x))); eauto.
Qed.

Lemma any_fails_returns (cs : list Predicate) (face : Face) :
  Forall (fun criterion => returns (criterion face)) cs ->
  returns (any_fails cs face).
Proof.
  induction 1 as [|criterion cs [ok Hok] _ IH]; simpl; [eauto|].
  rewrite Hok. simpl. destruct ok; simpl; eauto.
Qed.

Lemma match_returns (args : Args) (face : Face) :
  (exists c, active args c = true) -> well_formed face -> exact_bounds args ->
  returns (match_ (from_args args) face).
Proof.
  intros [c Hc] Hwf Hex. unfold match_.
  rewrite criteria_from_args, built_build.
  set (cs := flat_map _ categories).
  assert (Hcs : Forall (fun cl : Closure =>
                          returns (cl (final_frame args) face)) cs).
  { apply Forall_flat_map, Forall_forall. intros c' _.
    destruct (active args c') eqn:E; [|constructor].
    repeat constructor. by apply closure_returns. }
  assert (Hne : cs <> []).
  { intros Hnil. assert (In (closure_of args c) cs) as Hin; [|by rewrite Hnil in Hin].
    apply in_flat_map. exists c. split; [by destruct c; simpl; auto 10|].
    rewrite Hc. by left. }
  destruct cs as [|cl cs']; [done|]. cbv iota.
  destruct (any_fails_returns
              (map (fun c0 : Frame -> Predicate => c0 (final_frame args))
                   (cl :: cs'))
              face) as [b Hb].
  { by apply Forall_map. }
  rewrite Hb. simpl. eauto.
Qed.

(** With a criterion at least and well-formed data, [filter] returns. *)
Lemma filter_total (args : Args) (card_dict : CardDict) :
  (exists c, active args c = true) -> exact_bounds args ->
  Forall (fun e => Forall well_formed (snd e)) card_dict ->
  returns (filter (from_args args) card_dict).
Proof.
  intros Hc Hex Hwf. rewrite filter_returns; [eauto|].
  eapply Forall_impl; [exact Hwf|]. intros [name faces] Hfaces. simpl in *.
  assert (Hret : Forall (fun face => returns (match_ (from_args args) face))
                        faces).
  { eapply Forall_impl; [exact Hfaces|]. intros face Hface.
    by apply match_returns. }
  destruct (matches_returns (from_args args) faces Hret) as (b & Hb & _).
  by exists b.
Qed.

(** ** The object store *)

Section store.
Context (self : Store.loc) (h : gmap Store.loc Store.Obj).

Lemma store_call (criterion : Predicate) (face : Store.loc) :
  snd (Store.call criterion face h) = h.
Proof.
  unfold Store.call, Store.bindM, Store.get_face, Store.lift.
  by destruct (h !! face) as [[f| | |]|].
Qed.

Lemma store_any_fails (cs : list Predicate) (face : Store.loc) :
  snd (Store.any_fails cs face h) = h.
Proof.
  induction cs as [|criterion cs IH]; [done|].
  simpl. unfold Store.bindM.
  pose proof (store_call criterion face) as Hc.
  destruct (Store.call criterion face h) as [[ok|e] h']; simpl in Hc;
    subst h'; [|done].
  by destruct ok.
Qed.

Lemma store_match (face : Store.loc) :
  snd (Store.match_ self face h) = h.
Proof.
  unfold Store.match_, Store.bindM at 1, Store.get_self.
  destruct (h !! self) as [[| | |this]|]; try done.
  destruct (criteria this) as [cs|]; [|done].
  unfold Store.bindM. pose proof (store_any_fails cs face) as Hc.
  by destruct (Store.any_fails cs face h) as [[?|?] ?].
Qed.

Lemma store_matches_loop (faces : list Store.loc) :
  snd (Store.matches_loop self faces h) = h.
Proof.
  induction faces as [|face faces IH]; [done|].
  simpl. unfold Store.bindM.
  pose proof (store_match face) as Hc.
  destruct (Store.match_ self face h) as [[m|e] h']; simpl in Hc;
    subst h'; [|done].
  by destruct m.
Qed.

Lemma store_matches (faces : Store.loc) :
  snd (Store.matches self faces h) = h.
Proof.
  unfold Store.matches, Store.bindM, Store.get_list.
  destruct (h !! faces) as [[|fs| |]|]; try done.
  apply store_matches_loop.
Qed.

Lemma store_filter_loop (items : list (string * Store.loc)) :
  exists r, Store.filter_loop self items h = (r, h) /\
            forall out, r = Ok out -> out `sublist_of` items.
Proof.
  induction items as [|[name faces] rest (r & Hr & IH)].
  - exists (Ok []). split; [done|]. intros out [= <-]. constructor.
  - simpl. unfold Store.bindM.
    pose proof (store_matches faces) as Hc.
    destruct (Store.matches self faces h) as [[keep|e] h']; simpl in Hc;
      subst h'.
    + rewrite Hr. destruct r as [out'|e].
      * eexists. split; [done|]. intros out [= <-].
        destruct keep; constructor; by apply IH.
      * eexists. split; [done|]. discriminate.
    + eexists. split; [done|]. discriminate.
Qed.

(** What [filter] does to the store: nothing when it raises; when it
    returns, the one new object is the dict it returns, at an address
    that was free, whose entries are entries of the input dict (the same
    names bound to the same face lists) in the same order. *)
Lemma store_filter (card_dict : Store.loc) :
  match Store.filter self card_dict h with
  | (Ok d, h') =>
    h !! d = None /\
    exists items out,
      h !! card_dict = Some (Store.ODict items) /\
      h' = <[d := Store.ODict out]> h /\
      out `sublist_of` items
  | (Raise e, h') => h' = h
  end.
Proof.
  unfold Store.filter, Store.bindM at 1, Store.get_items.
  destruct (h !! card_dict) as [[| |items|]|] eqn:Hd; try done.
  unfold Store.bindM.
  destruct (store_filter_loop items) as (r & -> & Hsub).
  destruct r as [out|e]; [|done].
  unfold Store.alloc. split.
  - apply not_elem_of_dom, is_fresh.
  - exists items, out. split; [done|]. split; [done|]. by apply Hsub.
Qed.
End store.

(** The store-passing methods compute what the methods on values compute,
    on the values the store holds. *)
Section refinement.
Context (self : Store.loc) (this : CardFilter)
        (h : gmap Store.loc Store.Obj).
Hypothesis Hself : h !! self = Some (Store.OFilter this).

Lemma refine_call (criterion : Predicate) (l : Store.loc) (face : Face) :
  h !! l = Some (Store.OFace face) ->
  Store.call criterion l h = (criterion face, h).
Proof.
  intros Hl. unfold Store.call, Store.bindM, Store.get_face, Store.lift.
  by rewrite Hl.
Qed.

Lemma refine_any_fails (cs : list Predicate) (l : Store.loc) (face : Face) :
  h !! l = Some (Store.OFace face) ->
  Store.any_fails cs l h = (any_fails cs face, h).
Proof.
  intros Hl. induction cs as [|criterion cs IH]; [done|].
  simpl. unfold Store.bindM. rewrite (refine_call _ _ _ Hl).
  destruct (criterion face) as [[]|e]; simpl; done.
Qed.

Lemma refine_match (l : Store.loc) (face : Face) :
  h !! l = Some (Store.OFace face) ->
  Store.match_ self l h = (match_ this face, h).
Proof.
  intros Hl. unfold Store.match_, Store.bindM at 1, Store.get_self, match_.
  rewrite Hself. destruct (criteria this) as [cs|]; [|done].
  unfold Store.bindM. rewrite (refine_any_fails _ _ _ Hl).
  by destruct (any_fails cs face).
Qed.

Lemma refine_matches_loop (ls : list Store.loc) (faces : list Face) :
  Forall2 (fun fl f => h !! fl = Some (Store.OFace f)) ls faces ->
  Store.matches_loop self ls h = (matches this faces, h).
Proof.
  induction 1 as [|l face ls faces Hl _ IH]; [done|].
  simpl. unfold Store.bindM. rewrite (refine_match _ _ Hl).
  destruct (match_ this face) as [[]|e]; simpl; done.
Qed.

Lemma refine_matches (l : Store.loc) (faces : list Face) :
  Store.faces_at h l faces ->
  Store.matches self l h = (matches this faces, h).
Proof.
  intros (ls & Hl & Hfs).
  unfold Store.matches, Store.bindM, Store.get_list. rewrite Hl.
  by apply refine_matches_loop.
Qed.

Lemma refine_filter_loop (items : list (string * Store.loc))
    (cards : CardDict) :
  Forall2 (fun i c => fst i = fst c /\ Store.faces_at h (snd i) (snd c))
          items cards ->
  match filter this cards with
  | Ok out =>
    exists out_items,
      Store.filter_loop self items h = (Ok out_items, h) /\
      Forall2 (fun i c => fst i = fst c /\
                          Store.faces_at h (snd i) (snd c))
              out_items out
  | Raise e => Store.filter_loop self items h = (Raise e, h)
  end.
Proof.
  induction 1 as [|[name l] [name' faces] items cards [Hn Hl] _ IH];
    simpl in *.
  - exists []. split; [done|]. constructor.
  - subst name'. unfold Store.bindM. rewrite (refine_matches _ _ Hl).
    destruct (matches this faces) as [keep|e]; simpl; [|done].
    destruct (filter this cards) as [out|e]; simpl.
    + destruct IH as (out_items & -> & Hout).
      destruct keep; eexists; (split; [done|]); [|done].
      by constructor.
    + by rewrite IH.
Qed.

Lemma faces_at_insert (d : Store.loc) (o : Store.Obj) (l : Store.loc)
    (faces : list Face) :
  h !! d = None -> Store.faces_at h l faces ->
  Store.faces_at (<[d := o]> h) l faces.
Proof.
  intros Hd (ls & Hl & Hfs). exists ls. split.
  - rewrite lookup_insert_ne; [done|]. intros ->. congruence.
  - eapply Forall2_impl; [exact Hfs|]. intros fl f Hfl. simpl in *.
    rewrite lookup_insert_ne; [done|]. intros ->. congruence.
Qed.

Lemma refine_filter (card_dict : Store.loc) (cards : CardDict) :
  Store.cards_at h card_dict cards ->
  match filter this cards with
  | Ok out =>
    exists d h',
      Store.filter self card_dict h = (Ok d, h') /\
      Store.cards_at h' d out
  | Raise e => Store.filter self card_dict h = (Raise e, h)
  end.
Proof.
  intros (items & Hd & Hitems).
  pose proof (refine_filter_loop _ _ Hitems) as Hloop.
  unfold Store.filter, Store.bindM, Store.get_items. rewrite Hd.
  destruct (filter this cards) as [out|e].
  - destruct Hloop as (out_items & -> & Hout).
    unfold Store.alloc. do 2 eexists. split; [done|].
    exists out_items. split; [by rewrite lookup_insert_eq|].
    eapply Forall2_impl; [exact Hout|].
    intros i c [Hn Hf]. split; [done|].
    apply faces_at_insert; [|done].
    apply not_elem_of_dom, is_fresh.
  - by rewrite Hloop.
Qed.
End refinement.

(** C8: [match] and [matches] leave every object of the store as it was;
    so does [filter], whose only effect is the new dict it returns, placed
    at a free address, with entries taken from the input dict (same names,
    same face lists by reference, same order); and what the three return
    is what the methods on values compute from the Criterion Set and the
    values of the cards alone. *)
Theorem matcher_is_pure (self card_dict faces face : Store.loc)
    (h : gmap Store.loc Store.Obj) :
  snd (Store.match_ self face h) = h /\
  snd (Store.matches self faces h) = h /\
  (forall l, is_Some (h !! l) ->
     snd (Store.filter self card_dict h) !! l = h !! l) /\
  match Store.filter self card_dict h with
  | (Ok d, h') =>
    h !! d = None /\
    exists items out,
      h !! card_dict = Some (Store.ODict items) /\
      h' = <[d := Store.ODict out]> h /\
      out `sublist_of` items
  | (Raise e, h') => h' = h
  end /\
  (forall this f fs cards,
     h !! self = Some (Store.OFilter this) ->
     (h !! face = Some (Store.OFace f) ->
      fst (Store.match_ self face h) = match_ this f) /\
     (Store.faces_at h faces fs ->
      fst (Store.matches self faces h) = matches this fs) /\
     (Store.cards_at h card_dict cards ->
      match filter this cards with
      | Ok out =>
        exists d h',
          Store.filter self card_dict h = (Ok d, h') /\
          Store.cards_at h' d out
      | Raise e => fst (Store.filter self card_dict h) = Raise e
      end)).
Proof.
  split; [apply store_match|]. split; [apply store_matches|].
  pose proof (store_filter self h card_dict) as Hf.
  split; [|split; [exact Hf|]].
  - intros l [o Hl]. destruct (Store.filter self card_dict h) as [[d|e] h'].
    + destruct Hf as (Hd & items & out & _ & -> & _). simpl.
      rewrite lookup_insert_ne; [done|]. intros ->. congruence.
    + simpl. by subst h'.
  - intros this f fs cards Hself. split; [|split].
    + intros Hface. by rewrite (refine_match _ _ _ Hself _ _ Hface).
    + intros Hfs. by rewrite (refine_matches _ _ _ Hself _ _ Hfs).
    + intros Hcards.
      pose proof (refine_filter _ _ _ Hself _ _ Hcards) as Hr.
      destruct (filter this cards) as [out|e]; [done|by rewrite Hr].
Qed.

(** ** The properties at sample inputs *)

Lemma matches_iff_a_face_matches_witness :
  Forall (fun face => returns (match_ (from_args red_power_2_4) face))
         [forest; bear] /\
  matches (from_args red_power_2_4) [forest; bear] = Ok true /\
  Exists (fun face => match_ (from_args red_power_2_4) face = Ok true)
         [forest; bear] /\
  exists b, matches (from_args red_power_2_4) [forest; bear] = Ok b /\
    (b = true <->
     Exists (fun face => match_ (from_args red_power_2_4) face = Ok true)
            [forest; bear]).
Proof.
  assert (H : Forall (fun face => returns (match_ (from_args red_power_2_4) face))
                     [forest; bear]).
  { repeat constructor; eexists; vm_compute; reflexivity. }
  assert (Ht : matches (from_args red_power_2_4) [forest; bear] = Ok true)
    by reflexivity.
  split; [exact H|]. split; [exact Ht|]. split.
  - exact (proj1 (proj2 (matches_iff_a_face_matches
                           (from_args red_power_2_4) [forest; bear])) Ht).
  - exact (proj2 (proj2 (matches_iff_a_face_matches
                           (from_args red_power_2_4) [forest; bear])) H).
Defined.

Lemma filter_is_ordered_restriction_witness :
  Forall (fun e => returns (matches (from_args red_power_2_4) (snd e)))
         [("Forest", [forest]); ("Bear", [bear])] /\
  NoDup (map fst [("Forest", [forest]); ("Bear", [bear])]) /\
  filter (from_args red_power_2_4) [("Forest", [forest]); ("Bear", [bear])]
  = Ok [("Bear", [bear])] /\
  NoDup (map fst [("Bear", [bear])]).
Proof.
  assert (H : Forall (fun e => returns (matches (from_args red_power_2_4) (snd e)))
                     [("Forest", [forest]); ("Bear", [bear])]).
  { repeat constructor; eexists; vm_compute; reflexivity. }
  assert (Hnd : NoDup (map fst [("Forest", [forest]); ("Bear", [bear])])).
  { compute_done. }
  split; [exact H|]. split; [exact Hnd|].
  destruct (filter_is_ordered_restriction _ _ H)
    as (out & Hout & Hfilter & _ & _ & Hkeys).
  assert (Heq : out = [("Bear", [bear])]) by (rewrite Hfilter; reflexivity).
  rewrite Heq in Hout, Hkeys. split; [exact Hout|exact (Hkeys Hnd)].
Defined.

Lemma required_colors_subset_antitone_witness :
  colors_all red_power_2_4 = Some ["R"] /\ ["R"] <> [] /\
  colors_all red_green = Some ["R"; "G"] /\
  (list_to_set ["R"] : gset string) ⊆ list_to_set ["R"; "G"] /\
  exists p' rest' p rest,
    criteria (from_args red_green) = Some (p' :: rest') /\
    p' bear = Ok true /\
    criteria (from_args red_power_2_4) = Some (p :: rest) /\
    p bear = Ok true /\
    (p bear = Ok true <->
     exists cs, colors bear = Some cs /\
                (list_to_set ["R"] : gset string) ⊆ list_to_set cs).
Proof.
  assert (H1 : colors_all red_power_2_4 = Some ["R"]) by reflexivity.
  assert (H2 : ["R"] <> ([] : list string)) by discriminate.
  assert (H3 : colors_all red_green = Some ["R"; "G"]) by reflexivity.
  assert (H4 : (list_to_set ["R"] : gset string) ⊆ list_to_set ["R"; "G"])
    by compute_done.
  split; [exact H1|]. split; [exact H2|]. split; [exact H3|].
  split; [exact H4|].
  destruct (required_colors_subset_antitone red_power_2_4 ["R"] H1 H2)
    as (p & rest & Hc & Hp & Hanti).
  exists (colors_all_check red_green (final_frame red_green)), [], p, rest.
  assert (Hc' : criteria (from_args red_green)
                = Some [colors_all_check red_green (final_frame red_green)])
    by reflexivity.
  assert (Hp' : colors_all_check red_green (final_frame red_green) bear
                = Ok true) by reflexivity.
  split; [exact Hc'|]. split; [exact Hp'|]. split; [exact Hc|].
  split; [exact (Hanti red_green _ _ _ bear H3 H4 Hc' Hp')|apply Hp].
Defined.

Lemma matcher_is_pure_witness :
  let h := Store.sample (from_args red_power_2_4) bear in
  h !! 0%nat = Some (Store.OFilter (from_args red_power_2_4)) /\
  h !! 1%nat = Some (Store.OFace bear) /\
  Store.faces_at h 2%nat [bear] /\
  Store.cards_at h 3%nat [("Bear", [bear])] /\
  is_Some (h !! 3%nat) /\
  snd (Store.filter 0%nat 3%nat h) !! 3%nat = h !! 3%nat /\
  fst (Store.match_ 0%nat 1%nat h) = match_ (from_args red_power_2_4) bear /\
  fst (Store.matches 0%nat 2%nat h) = matches (from_args red_power_2_4) [bear] /\
  match filter (from_args red_power_2_4) [("Bear", [bear])] with
  | Ok out =>
    exists d h',
      Store.filter 0%nat 3%nat h = (Ok d, h') /\ Store.cards_at h' d out
  | Raise e => fst (Store.filter 0%nat 3%nat h) = Raise e
  end.
Proof.
  intros h.
  assert (H0 : h !! 0%nat = Some (Store.OFilter (from_args red_power_2_4)))
    by reflexivity.
  assert (H1 : h !! 1%nat = Some (Store.OFace bear)) by reflexivity.
  assert (H2 : Store.faces_at h 2%nat [bear]).
  { exists [1%nat]. split; [reflexivity|]. by repeat constructor. }
  assert (H3 : Store.cards_at h 3%nat [("Bear", [bear])]).
  { exists [("Bear", 2%nat)]. split; [reflexivity|]. by repeat constructor. }
  assert (H4 : is_Some (h !! 3%nat)) by (eexists; reflexivity).
  pose proof (matcher_is_pure 0%nat 3%nat 2%nat 1%nat h)
    as (_ & _ & Hframe & _ & Hval).
  destruct (Hval _ bear [bear] [("Bear", [bear])] H0) as (Hm & Hms & Hf).
  split; [exact H0|]. split; [exact H1|]. split; [exact H2|].
  split; [exact H3|]. split; [exact H4|].
  split; [exact (Hframe _ H4)|]. split; [exact (Hm H1)|].
  split; [exact (Hms H2)|exact (Hf H3)].
Defined.

(** * Further properties of the code *)

(** ** [match]: conjunction, in order *)

Lemma any_fails_all_return (cs : list Predicate) (face : Face) :
  Forall (fun criterion => returns (criterion face)) cs ->
  exists b, any_fails cs face = Ok b /\
            (b = false <-> Forall (fun criterion => criterion face = Ok true) cs).
Proof.
  induction 1 as [|criterion cs [ok Hok] _ (b & Hb & IH)]; simpl.
  - exists false. by split.
  - rewrite Hok. simpl. destruct ok; simpl.
    + exists b. split; [done|]. rewrite IH. split.
      * intros H. by constructor.
      * intros H. by inversion H.
    + exists true. split; [done|]. split; [discriminate|].
      intros H. inversion H. congruence.
Qed.

(** X1: when every criterion of the set returns on a Face, [match]
    returns, and it is true exactly when every criterion is true of the
    Face. *)
Theorem match_is_conjunction (self : CardFilter) (cs : list Predicate)
    (face : Face) :
  criteria self = Some cs ->
  Forall (fun criterion => returns (criterion face)) cs ->
  exists b, match_ self face = Ok b /\
            (b = true <-> Forall (fun criterion => criterion face = Ok true) cs).
Proof.
  intros Hcs Hret. unfold match_. rewrite Hcs.
  destruct (any_fails_all_return cs face Hret) as (b & -> & Hb). simpl.
  exists (negb b). split; [done|]. rewrite <- Hb. by destruct b.
Qed.

Lemma match_is_conjunction_witness :
  criteria (from_args red_power_2_4)
  = Some [colors_all_check red_power_2_4 (final_frame red_power_2_4);
          power_check red_power_2_4 (final_frame red_power_2_4)] /\
  Forall (fun criterion : Predicate => returns (criterion bear))
         [colors_all_check red_power_2_4 (final_frame red_power_2_4);
          power_check red_power_2_4 (final_frame red_power_2_4)] /\
  exists b, match_ (from_args red_power_2_4) bear = Ok b /\
    (b = true <->
     Forall (fun criterion : Predicate => criterion bear = Ok true)
            [colors_all_check red_power_2_4 (final_frame red_power_2_4);
             power_check red_power_2_4 (final_frame red_power_2_4)]).
Proof.
  assert (H1 : criteria (from_args red_power_2_4)
    = Some [colors_all_check red_power_2_4 (final_frame red_power_2_4);
            power_check red_power_2_4 (final_frame red_power_2_4)])
    by reflexivity.
  assert (H2 : Forall (fun criterion : Predicate => returns (criterion bear))
         [colors_all_check red_power_2_4 (final_frame red_power_2_4);
          power_check red_power_2_4 (final_frame red_power_2_4)]).
  { repeat constructor; eexists; vm_compute; reflexivity. }
  split; [exact H1|]. split; [exact H2|].
  exact (match_is_conjunction _ _ bear H1 H2).
Defined.

Lemma any_fails_prefix (pre post : list Predicate) (criterion : Predicate)
    (face : Face) :
  Forall (fun p => p face = Ok true) pre ->
  any_fails (pre ++ criterion :: post)%list face
  = let* ok := criterion face in
    if negb ok then Ok true else any_fails post face.
Proof.
  induction 1 as [|p pre Hp _ IH]; [done|].
  simpl. rewrite Hp. simpl. exact IH.
Qed.

(** X2: the criteria are tried in order and the first one that is not
    true of the Face decides: if it is false, [match] is false, and if it
    raises, [match] raises the same exception; the criteria after it are
    not called. *)
Theorem match_first_failure_decides (self : CardFilter)
    (pre post : list Predicate) (criterion : Predicate) (face : Face) :
  criteria self = Some (pre ++ criterion :: post)%list ->
  Forall (fun p => p face = Ok true) pre ->
  (criterion face = Ok false -> match_ self face = Ok false) /\
  (forall e, criterion face = Raise e -> match_ self face = Raise e).
Proof.
  intros Hcs Hpre. unfold match_. rewrite Hcs, (any_fails_prefix _ _ _ _ Hpre).
  split.
  - by intros ->.
  - by intros e ->.
Qed.

Lemma match_first_failure_decides_witness :
  criteria (from_args red_power_2_4)
  = Some ([] ++ colors_all_check red_power_2_4 (final_frame red_power_2_4)
             :: [power_check red_power_2_4 (final_frame red_power_2_4)])%list /\
  Forall (fun p : Predicate => p forest = Ok true) [] /\
  colors_all_check red_power_2_4 (final_frame red_power_2_4) forest
  = Ok false /\
  colors_all_check red_power_2_4 (final_frame red_power_2_4) colorless_key
  = Raise KeyError /\
  match_ (from_args red_power_2_4) forest = Ok false /\
  match_ (from_args red_power_2_4) colorless_key = Raise KeyError.
Proof.
  assert (H1 : criteria (from_args red_power_2_4)
    = Some ([] ++ colors_all_check red_power_2_4 (final_frame red_power_2_4)
               :: [power_check red_power_2_4 (final_frame red_power_2_4)])%list)
    by reflexivity.
  assert (H2 : forall face, Forall (fun p : Predicate => p face = Ok true) [])
    by constructor.
  assert (H3 : colors_all_check red_power_2_4 (final_frame red_power_2_4)
                 forest = Ok false) by reflexivity.
  assert (H4 : colors_all_check red_power_2_4 (final_frame red_power_2_4)
                 colorless_key = Raise KeyError) by reflexivity.
  split; [exact H1|]. split; [exact (H2 forest)|]. split; [exact H3|].
  split; [exact H4|]. split.
  - exact (proj1 (match_first_failure_decides _ _ _ _ forest H1 (H2 _)) H3).
  - exact (proj2 (match_first_failure_decides _ _ _ _ colorless_key H1 (H2 _))
                 _ H4).
Defined.

(** X3: the order of the criteria does not change what [match] returns,
    as long as every criterion returns on the Face. *)
Theorem match_order_irrelevant (cs cs' : list Predicate) (face : Face) :
  Permutation cs cs' ->
  Forall (fun criterion => returns (criterion face)) cs ->
  match_ (mkCardFilter (Some cs)) face = match_ (mkCardFilter (Some cs')) face.
Proof.
  intros Hperm Hret.
  assert (Hret' : Forall (fun criterion => returns (criterion face)) cs').
  { by rewrite <- Hperm. }
  unfold match_. simpl.
  destruct (any_fails_all_return cs face Hret) as (b & -> & Hb).
  destruct (any_fails_all_return cs' face Hret') as (b' & -> & Hb').
  simpl. f_equal. f_equal.
  assert (b = false <-> b' = false) as Hbb.
  { rewrite Hb, Hb'. by rewrite Hperm. }
  destruct b, b'; try done; destruct Hbb; auto.
  symmetry. auto.
Qed.

Lemma match_order_irrelevant_witness :
  Permutation
    [colors_all_check red_power_2_4 (final_frame red_power_2_4);
     power_check red_power_2_4 (final_frame red_power_2_4)]
    [power_check red_power_2_4 (final_frame red_power_2_4);
     colors_all_check red_power_2_4 (final_frame red_power_2_4)] /\
  match_ (from_args red_power_2_4) forest
  = match_ (mkCardFilter
              (Some [power_check red_power_2_4 (final_frame red_power_2_4);
                     colors_all_check red_power_2_4
                                      (final_frame red_power_2_4)]))
           forest.
Proof.
  assert (Hp : Permutation
    [colors_all_check red_power_2_4 (final_frame red_power_2_4);
     power_check red_power_2_4 (final_frame red_power_2_4)]
    [power_check red_power_2_4 (final_frame red_power_2_4);
     colors_all_check red_power_2_4 (final_frame red_power_2_4)])
    by apply perm_swap.
  split; [exact Hp|].
  refine (match_order_irrelevant _ _ forest Hp _).
  repeat constructor; eexists; vm_compute; reflexivity.
Defined.

(** ** [matches]: the first face that matches ends the loop *)

Lemma matches_prefix (self : CardFilter) (pre post : list Face) (face : Face) :
  Forall (fun f => match_ self f = Ok false) pre ->
  matches self (pre ++ face :: post)%list
  = let* m := match_ self face in
    if m then Ok true else matches self post.
Proof.
  induction 1 as [|f pre Hf _ IH]; [done|].
  simpl. rewrite Hf. simpl. exact IH.
Qed.

(** X4: [matches] looks at the faces in order and stops at the first one
    that matches or raises: the card matches whatever the later faces are,
    malformed ones included, and an exception of a face is the exception
    of [matches] when no earlier face matches. *)
Theorem matches_stops_at_first_match (self : CardFilter)
    (pre post : list Face) (face : Face) :
  Forall (fun f => match_ self f = Ok false) pre ->
  (match_ self face = Ok true ->
   matches self (pre ++ face :: post)%list = Ok true) /\
  (forall e, match_ self face = Raise e ->
   matches self (pre ++ face :: post)%list = Raise e).
Proof.
  intros Hpre. rewrite (matches_prefix _ _ _ _ Hpre). split.
  - by intros ->.
  - by intros e ->.
Qed.

Lemma matches_stops_at_first_match_witness :
  Forall (fun f => match_ (from_args red_power_2_4) f = Ok false) [forest] /\
  match_ (from_args red_power_2_4) bear = Ok true /\
  match_ (from_args red_power_2_4) colorless_key = Raise KeyError /\
  matches (from_args red_power_2_4) ([forest] ++ bear :: [colorless_key])%list
  = Ok true /\
  matches (from_args red_power_2_4) ([forest] ++ colorless_key :: [bear])%list
  = Raise KeyError.
Proof.
  assert (H1 : Forall (fun f => match_ (from_args red_power_2_4) f = Ok false)
                      [forest]) by (repeat constructor).
  assert (H2 : match_ (from_args red_power_2_4) bear = Ok true)
    by reflexivity.
  assert (H3 : match_ (from_args red_power_2_4) colorless_key
               = Raise KeyError) by reflexivity.
  split; [exact H1|]. split; [exact H2|]. split; [exact H3|]. split.
  - exact (proj1 (matches_stops_at_first_match _ _ [colorless_key] bear H1) H2).
  - exact (proj2 (matches_stops_at_first_match _ _ [bear] colorless_key H1)
                 _ H3).
Defined.

(** ** [filter]: exceptions, repetition, concatenation *)

Lemma filter_prefix (self : CardFilter) (pre rest : CardDict) :
  Forall (fun e => returns (matches self (snd e))) pre ->
  filter self (pre ++ rest)%list
  = let* out := filter self rest in Ok (List.filter (kept self) pre ++ out)%list.
Proof.
  induction 1 as [|[name faces] pre [keep Hk] _ IH]; simpl in *.
  - by destruct (filter self rest).
  - assert (Hkept : kept self (name, faces) = keep).
    { unfold kept. simpl. rewrite Hk. by destruct keep. }
    rewrite Hk, IH, Hkept. simpl.
    destruct (filter self rest); simpl; [|done]. by destruct keep.
Qed.

Lemma filter_Raise_inv (self : CardFilter) (card_dict : CardDict) (e : exn) :
  filter self card_dict = Raise e ->
  exists pre name faces post,
    card_dict = (pre ++ (name, faces) :: post)%list /\
    Forall (fun c => returns (matches self (snd c))) pre /\
    matches self faces = Raise e.
Proof.
  induction card_dict as [|[name faces] rest IH]; simpl; [discriminate|].
  destruct (matches self faces) as [keep|e'] eqn:Hk; simpl.
  - destruct (filter self rest) as [out|e'] eqn:Hrest; simpl; [discriminate|].
    intros [= ->]. destruct (IH eq_refl) as (pre & n & fs & post & -> & Hpre & Hfs).
    exists ((name, faces) :: pre), n, fs, post. split; [done|].
    split; [|done]. constructor; [|done]. by exists keep.
  - intros [= ->]. exists [], name, faces, rest. by repeat split.
Qed.

(** X5: [filter] raises exactly when [matches] raises on a card that no
    raising card precedes, and it raises that same exception: the first
    card on which [matches] raises ends the filter, whatever follows. *)
Theorem filter_raises_first_exception (self : CardFilter)
    (card_dict : CardDict) (e : exn) :
  filter self card_dict = Raise e <->
  exists pre name faces post,
    card_dict = (pre ++ (name, faces) :: post)%list /\
    Forall (fun c => returns (matches self (snd c))) pre /\
    matches self faces = Raise e.
Proof.
  split; [apply filter_Raise_inv|].
  intros (pre & name & faces & post & -> & Hpre & Hfs).
  rewrite (filter_prefix _ _ _ Hpre). simpl. by rewrite Hfs.
Qed.

Lemma filter_kept_idempotent (self : CardFilter) (card_dict : CardDict) :
  List.filter (kept self) (List.filter (kept self) card_dict)
  = List.filter (kept self) card_dict.
Proof.
  induction card_dict as [|c rest IH]; [done|].
  simpl. destruct (kept self c) eqn:E; [|done].
  simpl. by rewrite E, IH.
Qed.

(** X6: filtering the result of [filter] again, with the same filter,
    returns it unchanged. *)
Theorem filter_idempotent (self : CardFilter) (card_dict out : CardDict) :
  filter self card_dict = Ok out -> filter self out = Ok out.
Proof.
  intros H. pose proof (filter_Ok_inv _ _ _ H) as Hret.
  rewrite (filter_returns _ _ Hret) in H. injection H as <-.
  rewrite filter_returns.
  - by rewrite filter_kept_idempotent.
  - apply Forall_forall. intros c Hc.
    apply list_elem_of_In, filter_In in Hc as [Hc _].
    rewrite Forall_forall in Hret. by apply Hret, list_elem_of_In.
Qed.

Lemma filter_idempotent_witness :
  filter (from_args red_power_2_4) [("Forest", [forest]); ("Bear", [bear])]
  = Ok [("Bear", [bear])] /\
  filter (from_args red_power_2_4) [("Bear", [bear])] = Ok [("Bear", [bear])].
Proof.
  assert (H : filter (from_args red_power_2_4)
                     [("Forest", [forest]); ("Bear", [bear])]
              = Ok [("Bear", [bear])]) by reflexivity.
  split; [exact H|]. exact (filter_idempotent _ _ _ H).
Defined.

(** X7: filtering two mappings one after the other gives the two results
    one after the other; when the first raises, so does the whole. *)
Theorem filter_app (self : CardFilter) (cards1 cards2 : CardDict) :
  (forall out1 out2,
     filter self cards1 = Ok out1 -> filter self cards2 = Ok out2 ->
     filter self (cards1 ++ cards2)%list = Ok (out1 ++ out2)%list) /\
  (forall e, filter self cards1 = Raise e ->
     filter self (cards1 ++ cards2)%list = Raise e).
Proof.
  split.
  - intros out1 out2 H1 H2. pose proof (filter_Ok_inv _ _ _ H1) as Hret.
    rewrite (filter_prefix _ _ _ Hret), H2. simpl.
    rewrite (filter_returns _ _ Hret) in H1. by injection H1 as <-.
  - intros e H.
    apply filter_Raise_inv in H as (pre & n & fs & post & -> & Hpre & Hfs).
    rewrite <- app_assoc. rewrite (filter_prefix _ _ _ Hpre). simpl.
    by rewrite Hfs.
Qed.

Lemma filter_app_witness :
  filter (from_args red_power_2_4) [("Forest", [forest])] = Ok [] /\
  filter (from_args red_power_2_4) [("Bear", [bear])] = Ok [("Bear", [bear])] /\
  filter (from_args red_power_2_4) [("Odd", [colorless_key])]
  = Raise KeyError /\
  filter (from_args red_power_2_4)
         ([("Forest", [forest])] ++ [("Bear", [bear])])%list
  = Ok ([] ++ [("Bear", [bear])])%list /\
  filter (from_args red_power_2_4)
         ([("Odd", [colorless_key])] ++ [("Bear", [bear])])%list
  = Raise KeyError.
Proof.
  assert (H1 : filter (from_args red_power_2_4) [("Forest", [forest])] = Ok [])
    by reflexivity.
  assert (H2 : filter (from_args red_power_2_4) [("Bear", [bear])]
               = Ok [("Bear", [bear])]) by reflexivity.
  assert (H3 : filter (from_args red_power_2_4) [("Odd", [colorless_key])]
               = Raise KeyError) by reflexivity.
  split; [exact H1|]. split; [exact H2|]. split; [exact H3|]. split.
  - exact (proj1 (filter_app _ _ _) _ _ H1 H2).
  - exact (proj2 (filter_app _ _ [("Bear", [bear])]) _ H3).
Defined.

(** ** [main] *)

(** X8: when [main] ends normally, the lines it has printed are the names
    of the cards of the document on which [matches] is true, each once,
    in the order of the document; when it ends with an exception (the
    document has no [data] key, or the filter raises), it has printed
    nothing. *)
Theorem main_prints_matching_names (args : Args) (document : option CardDict) :
  (snd (main args document) = Ok tt ->
   exists card_dict,
     document = Some card_dict /\
     fst (main args document)
     = map fst (List.filter (kept (from_args args)) card_dict) /\
     fst (main args document) `sublist_of` map fst card_dict /\
     (NoDup (map fst card_dict) -> NoDup (fst (main args document)))) /\
  (forall e, snd (main args document) = Raise e ->
             fst (main args document) = []) /\
  (document = None -> main args document = ([], Raise KeyError)).
Proof.
  unfold main. split; [|split].
  - destruct document as [card_dict|]; [|discriminate].
    destruct (filter (from_args args) card_dict) as [out|e] eqn:Hf;
      [|discriminate].
    intros _. exists card_dict. split; [done|].
    pose proof (filter_Ok_inv _ _ _ Hf) as Hret.
    rewrite (filter_returns _ _ Hret) in Hf. injection Hf as <-. simpl.
    assert (Hsub : map fst (List.filter (kept (from_args args)) card_dict)
                   `sublist_of` map fst card_dict).
    { apply (fmap_sublist fst). apply filter_sublist. }
    split; [done|]. split; [done|].
    intros Hnd. by apply (sublist_NoDup _ (map fst card_dict)).
  - intros e. destruct document as [card_dict|]; [|done].
    by destruct (filter (from_args args) card_dict).
  - by intros ->.
Qed.

Lemma main_prints_matching_names_witness :
  snd (main red_power_2_4 (Some [("Forest", [forest]); ("Bear", [bear])]))
  = Ok tt /\
  snd (main no_args (Some [("Forest", [forest])])) = Raise TypeError /\
  fst (main red_power_2_4 (Some [("Forest", [forest]); ("Bear", [bear])]))
  = ["Bear"] /\
  fst (main no_args (Some [("Forest", [forest])])) = [].
Proof.
  assert (H1 : snd (main red_power_2_4
                      (Some [("Forest", [forest]); ("Bear", [bear])]))
               = Ok tt) by reflexivity.
  assert (H2 : snd (main no_args (Some [("Forest", [forest])]))
               = Raise TypeError) by reflexivity.
  split; [exact H1|]. split; [exact H2|]. split.
  - destruct (proj1 (main_prints_matching_names red_power_2_4
                       (Some [("Forest", [forest]); ("Bear", [bear])])) H1)
      as (card_dict & [= <-] & -> & _).
    reflexivity.
  - exact (proj1 (proj2 (main_prints_matching_names no_args
                           (Some [("Forest", [forest])]))) _ H2).
Defined.

Lemma filter_raises_first_exception_witness :
  filter (from_args red_power_2_4)
         [("Forest", [forest]); ("Odd", [colorless_key]); ("Bear", [bear])]
  = Raise KeyError.
Proof.
  apply (proj2 (filter_raises_first_exception (from_args red_power_2_4)
    [("Forest", [forest]); ("Odd", [colorless_key]); ("Bear", [bear])]
    KeyError)).
  exists [("Forest", [forest])], "Odd", [colorless_key], [("Bear", [bear])].
  split; [reflexivity|]. split; [|reflexivity].
  repeat constructor. eexists. vm_compute. reflexivity.
Defined.

(** ** The set predicates *)

Lemma active_in_criteria (args : Args) (c : Category) :
  active args c = true ->
  exists cs, criteria (from_args args) = Some cs /\
             In (closure_of args c (final_frame args)) cs.
Proof.
  intros Hc. rewrite criteria_from_args, built_build.
  set (built := flat_map _ categories).
  assert (Hin : In (closure_of args c) built).
  { apply in_flat_map. exists c. split; [by destruct c; simpl; auto 10|].
    rewrite Hc. by left. }
  destruct built as [|cl built']; [done|].
  eexists. split; [done|].
  by apply (in_map (fun cl0 : Closure => cl0 (final_frame args))) in Hin.
Qed.

(** X9: when accepted colors are given, the Criterion Set holds one
    predicate that, for every Face, accepts it exactly when the colors of
    the Face are included in the value of the variable [accepted] as
    [from_args] left it: the accepted colors when no accepted types are
    given, and the accepted types when they are. *)
Theorem accepted_colors_reads_last_accepted (args : Args) :
  truthy_list (colors_only args) = true ->
  exists p cs,
    criteria (from_args args) = Some cs /\ In p cs /\
    forall face,
      (p face = Ok true <->
       exists fc A,
         colors face = Some fc /\
         (if truthy_list (types_only args) then types_only args
          else colors_only args) = Some A /\
         (list_to_set fc : gset string) ⊆ list_to_set A) /\
      (colors face = None -> p face = Raise KeyError).
Proof.
  intros Hc.
  destruct (active_in_criteria args AcceptedColors Hc) as (cs & Hcs & Hin).
  exists (colors_only_check (final_frame args)), cs.
  split; [done|]. split; [done|]. intros face.
  unfold colors_only_check, final_frame. simpl. rewrite Hc.
  destruct (colors face) as [fc|]; simpl;
    [|split; [|done]; split; [discriminate|by intros (? & ? & ? & _)]].
  split; [|done].
  destruct (if truthy_list (types_only args) then types_only args
            else colors_only args) as [A|]; simpl.
  - split.
    + intros [= H]. exists fc, A. by rewrite <- set_le_true.
    + intros (fc' & A' & [= <-] & [= <-] & H). f_equal. by apply set_le_true.
  - split; [discriminate|]. by intros (? & ? & _ & ? & _).
Qed.

Lemma accepted_colors_reads_last_accepted_witness :
  truthy_list (colors_only red_green_creature) = true /\
  exists p cs,
    criteria (from_args red_green_creature) = Some cs /\ In p cs /\
    forall face,
      (p face = Ok true <->
       exists fc A,
         colors face = Some fc /\
         (if truthy_list (types_only red_green_creature)
          then types_only red_green_creature
          else colors_only red_green_creature) = Some A /\
         (list_to_set fc : gset string) ⊆ list_to_set A) /\
      (colors face = None -> p face = Raise KeyError).
Proof.
  assert (H : truthy_list (colors_only red_green_creature) = true)
    by reflexivity.
  split; [exact H|].
  exact (accepted_colors_reads_last_accepted red_green_creature H).
Defined.

(** X10: when required types are given, the Criterion Set holds one
    predicate that, for every Face, accepts it exactly when the Face has
    the [types] key and every required type is among its types, and raises
    [KeyError] when the Face has no [types] key. *)
Theorem required_types_subset (args : Args) :
  truthy_list (types_all args) = true ->
  exists p cs,
    criteria (from_args args) = Some cs /\ In p cs /\
    forall face,
      (p face = Ok true <->
       exists ts R,
         types face = Some ts /\ types_all args = Some R /\
         (list_to_set R : gset string) ⊆ list_to_set ts) /\
      (types face = None -> p face = Raise KeyError).
Proof.
  intros Hc.
  destruct (active_in_criteria args RequiredTypes Hc) as (cs & Hcs & Hin).
  exists (types_all_check (final_frame args)), cs.
  split; [done|]. split; [done|]. intros face.
  unfold types_all_check, final_frame. simpl in *. rewrite Hc.
  destruct (types_all args) as [R|]; [|discriminate]. simpl.
  destruct (types face) as [ts|]; simpl.
  - split; [|done]. split.
    + intros [= H]. exists ts, R. by rewrite <- set_le_true.
    + intros (ts' & R' & [= <-] & [= <-] & H). f_equal. by apply set_le_true.
  - split; [|done]. split; [discriminate|]. by intros (? & ? & ? & _).
Qed.

Lemma required_types_subset_witness :
  truthy_list (types_all creature_all) = true /\
  exists p cs,
    criteria (from_args creature_all) = Some cs /\ In p cs /\
    forall face,
      (p face = Ok true <->
       exists ts R,
         types face = Some ts /\ types_all creature_all = Some R /\
         (list_to_set R : gset string) ⊆ list_to_set ts) /\
      (types face = None -> p face = Raise KeyError).
Proof.
  assert (H : truthy_list (types_all creature_all) = true) by reflexivity.
  split; [exact H|]. exact (required_types_subset creature_all H).
Defined.

(** X11: when accepted types are given, the Criterion Set holds one
    predicate that, for every Face, accepts it exactly when the Face has
    the [types] key and each of its types is among the accepted types, and
    raises [KeyError] when the Face has no [types] key. *)
Theorem accepted_types_subset (args : Args) :
  truthy_list (types_only args) = true ->
  exists p cs,
    criteria (from_args args) = Some cs /\ In p cs /\
    forall face,
      (p face = Ok true <->
       exists ts A,
         types face = Some ts /\ types_only args = Some A /\
         (list_to_set ts : gset string) ⊆ list_to_set A) /\
      (types face = None -> p face = Raise KeyError).
Proof.
  intros Hc.
  destruct (active_in_criteria args AcceptedTypes Hc) as (cs & Hcs & Hin).
  exists (types_only_check (final_frame args)), cs.
  split; [done|]. split; [done|]. intros face.
  unfold types_only_check, final_frame. simpl in *. rewrite Hc.
  destruct (types_only args) as [A|]; [|discriminate]. simpl.
  destruct (types face) as [ts|]; simpl.
  - split; [|done]. split.
    + intros [= H]. exists ts, A. by rewrite <- set_le_true.
    + intros (ts' & A' & [= <-] & [= <-] & H). f_equal. by apply set_le_true.
  - split; [|done]. split; [discriminate|]. by intros (? & ? & ? & _).
Qed.

Lemma accepted_types_subset_witness :
  truthy_list (types_only creature_land_only) = true /\
  exists p cs,
    criteria (from_args creature_land_only) = Some cs /\ In p cs /\
    forall face,
      (p face = Ok true <->
       exists ts A,
         types face = Some ts /\ types_only creature_land_only = Some A /\
         (list_to_set ts : gset string) ⊆ list_to_set A) /\
      (types face = None -> p face = Raise KeyError).
Proof.
  assert (H : truthy_list (types_only creature_land_only) = true)
    by reflexivity.
  split; [exact H|]. exact (accepted_types_subset creature_land_only H).
Defined.

(** X12: when required or accepted colors are given, [match] raises
    [KeyError] on every Face without the [colors] key, and [filter] raises
    it on every mapping whose first face is such a Face: the colors
    criteria come first, so no other criterion can reject the Face
    before. *)
Theorem missing_colors_raises_KeyError (args : Args) (face : Face)
    (name : string) (faces : list Face) (rest : CardDict) :
  truthy_list (colors_all args) || truthy_list (colors_only args) = true ->
  colors face = None ->
  match_ (from_args args) face = Raise KeyError /\
  filter (from_args args) ((name, face :: faces) :: rest) = Raise KeyError.
Proof.
  intros Hc Hface.
  assert (Hm : match_ (from_args args) face = Raise KeyError).
  { unfold match_. rewrite criteria_from_args, built_build.
    unfold categories. cbn [flat_map active].
    destruct (truthy_list (colors_all args)) eqn:E1.
    - destruct (colors_all args) as [R|] eqn:ER; [|discriminate].
      simpl. unfold colors_all_check at 1. by rewrite ER, Hface.
    - simpl in Hc. rewrite Hc. simpl.
      unfold colors_only_check at 1. by rewrite Hface. }
  split; [done|]. simpl. by rewrite Hm.
Qed.

Lemma missing_colors_raises_KeyError_witness :
  truthy_list (colors_all red_power_2_4)
  || truthy_list (colors_only red_power_2_4) = true /\
  colors colorless_key = None /\
  match_ (from_args red_power_2_4) colorless_key = Raise KeyError /\
  filter (from_args red_power_2_4) [("Odd", [colorless_key])] = Raise KeyError.
Proof.
  split; [reflexivity|]. split; [reflexivity|].
  exact (missing_colors_raises_KeyError red_power_2_4 colorless_key "Odd"
           [] [] eq_refl eq_refl).
Defined.

(** ** The ranges, as the code takes the bounds *)

Lemma int_of_str_decimal (s : string) (v : Z) :
  int_of_str s = Ok v ->
  isnumeric s = true /\ 0 <= v.
Proof.
  unfold int_of_str, isnumeric.
  destruct s as [|c s]; [discriminate|].
  set (cs := list_ascii_of_string (String c s)).
  assert (Hne : cs <> []) by done.
  destruct cs as [|c0 cs0] eqn:E; [done|]. rewrite <- E. clear Hne.
  destruct (forallb decimal_char cs) eqn:Hd; [|discriminate].
  destruct (int_max_str_digits <? length cs)%nat; [discriminate|].
  intros [= <-]. split.
  - apply forallb_forall. intros x Hx.
    rewrite forallb_forall in Hd. specialize (Hd x Hx).
    unfold numeric_char. unfold decimal_char in Hd. by rewrite Hd.
  - assert (Hacc : forall l acc, forallb decimal_char l = true -> 0 <= acc ->
               0 <= fold_left (fun a x => 10 * a + digit_value x) l acc).
    { induction l as [|x l IH]; intros acc Hl Hacc; simpl in *; [done|].
      apply andb_true_iff in Hl as [Hx Hl]. apply IH; [done|].
      unfold decimal_char in Hx. apply andb_true_iff in Hx as [Hx _].
      apply N.leb_le in Hx. unfold digit_value. lia. }
    exact (Hacc cs 0 Hd (Z.le_refl 0)).
Qed.

(** A decimal string with more digits than [int] converts stops the
    check with [ValueError]. *)
Lemma too_many_digits_raises (lo hi : option Z) (s : string) :
  forallb decimal_char (list_ascii_of_string s) = true ->
  (int_max_str_digits < length (list_ascii_of_string s))%nat ->
  range_check lo hi (Some s) = Raise ValueError.
Proof.
  intros Hd Hlen. unfold range_check.
  assert (Hn : isnumeric s = true).
  { destruct s as [|c s]; [simpl in Hlen; lia|].
    unfold isnumeric. apply forallb_forall. intros x Hx.
    rewrite forallb_forall in Hd. specialize (Hd x Hx).
    unfold numeric_char. unfold decimal_char in Hd. by rewrite Hd. }
  assert (truthy_str (Some s) = true) as ->.
  { destruct s; [discriminate|done]. }
  rewrite Hn. simpl. unfold int_of_str. rewrite Hd.
  apply Nat.ltb_lt in Hlen. rewrite Hlen.
  by destruct (list_ascii_of_string s).
Qed.

(** X13: the power check accepts a Face exactly when its power is a
    numeric string whose integer value lies between the minimum (0 when
    the minimum is absent or 0) and the maximum (9999 when the maximum is
    absent or 0); the toughness check likewise.  A value above 9999 is
    rejected whenever no maximum takes the place of the default. *)
Theorem power_toughness_acceptance (args : Args) (fr : Frame) (face : Face) :
  (power_check args fr face = Ok true <->
   exists s v, power face = Some s /\ isnumeric s = true /\
               int_of_str s = Ok v /\
               or_default (power_min args) 0 <= v
               <= or_default (power_max args) 9999) /\
  (toughness_check args fr face = Ok true <->
   exists s v, toughness face = Some s /\ isnumeric s = true /\
               int_of_str s = Ok v /\
               or_default (tough_min args) 0 <= v
               <= or_default (tough_max args) 9999) /\
  (forall s v, truthy_int (power_max args) = false ->
     power face = Some s -> int_of_str s = Ok v -> 9999 < v ->
     power_check args fr face = Ok false) /\
  (forall s v, truthy_int (tough_max args) = false ->
     toughness face = Some s -> int_of_str s = Ok v -> 9999 < v ->
     toughness_check args fr face = Ok false).
Proof.
  assert (Hcap : forall lo hi s v, truthy_int hi = false ->
            int_of_str s = Ok v -> 9999 < v ->
            range_check lo hi (Some s) = Ok false).
  { intros lo hi s v Hhi Hv Hbig. unfold range_check. rewrite Hhi, Hv.
    destruct (int_of_str_decimal s v Hv) as [-> _].
    assert (truthy_str (Some s) = true) as ->.
    { destruct s; [|done]. discriminate. }
    simpl. f_equal. apply andb_false_iff. right. apply Z.leb_gt. done. }
  split; [apply range_check_true|]. split; [apply range_check_true|].
  split.
  - intros s v Hmax Hs. unfold power_check. rewrite Hs. by apply Hcap.
  - intros s v Hmax Hs. unfold toughness_check. rewrite Hs. by apply Hcap.
Qed.

Lemma power_toughness_acceptance_witness :
  truthy_int (power_max power_min_0) = false /\
  power (plain (Some "10000") None None) = Some "10000" /\
  int_of_str "10000" = Ok 10000 /\ 9999 < 10000 /\
  power_check power_min_0 (final_frame power_min_0)
              (plain (Some "10000") None None) = Ok false.
Proof.
  split; [reflexivity|]. split; [reflexivity|]. split; [reflexivity|].
  split; [lia|].
  refine (proj1 (proj2 (proj2 (power_toughness_acceptance power_min_0
            (final_frame power_min_0) (plain (Some "10000") None None))))
          "10000" 10000 eq_refl eq_refl eq_refl _).
  lia.
Defined.

(** X14: a negative minimum makes the guard of the power (toughness)
    range true, so the check is in the Criterion Set and a Face without a
    numeric power (toughness) is rejected; but it sets no lower bound: the
    check accepts exactly the numeric values up to the maximum, and its
    body returns what it returns with no minimum, since the value of a
    numeric string is never negative. *)
Theorem negative_min_adds_no_lower_bound (args : Args) (m : Z) :
  m < 0 ->
  (power_min args = Some m ->
   exists cs,
     criteria (from_args args) = Some cs /\
     In (power_check args (final_frame args)) cs /\
     forall fr face,
       (power_check args fr face = Ok true <->
        exists s v, power face = Some s /\ isnumeric s = true /\
                    int_of_str s = Ok v /\
                    v <= or_default (power_max args) 9999) /\
       (power face = None -> power_check args fr face = Ok false)) /\
  (tough_min args = Some m ->
   exists cs,
     criteria (from_args args) = Some cs /\
     In (toughness_check args (final_frame args)) cs /\
     forall fr face,
       (toughness_check args fr face = Ok true <->
        exists s v, toughness face = Some s /\ isnumeric s = true /\
                    int_of_str s = Ok v /\
                    v <= or_default (tough_max args) 9999) /\
       (toughness face = None -> toughness_check args fr face = Ok false)) /\
  (forall hi field,
     range_check (Some m) hi field = range_check None hi field).
Proof.
  intros Hm.
  assert (Hne : (m =? 0) = false) by (apply Z.eqb_neq; lia).
  assert (Hacc : forall hi field,
            range_check (Some m) hi field = Ok true <->
            exists s v, field = Some s /\ isnumeric s = true /\
                        int_of_str s = Ok v /\ v <= or_default hi 9999).
  { intros hi field. rewrite range_check_true. simpl. rewrite Hne.
    split.
    - intros (s & v & Hs & Hn & Hv & _ & Hhi). by exists s, v.
    - intros (s & v & Hs & Hn & Hv & Hhi). exists s, v.
      destruct (int_of_str_decimal s v Hv) as [_ Hpos].
      repeat split; try done. lia. }
  split; [|split].
  - intros Hmin.
    destruct (active_in_criteria args PowerRange) as (cs & Hcs & Hin).
    { simpl. by rewrite Hmin; simpl; rewrite Hne. }
    exists cs. split; [done|]. split; [done|]. intros fr face.
    unfold power_check. rewrite Hmin. split; [apply Hacc|].
    by intros ->.
  - intros Hmin.
    destruct (active_in_criteria args ToughnessRange) as (cs & Hcs & Hin).
    { simpl. by rewrite Hmin; simpl; rewrite Hne. }
    exists cs. split; [done|]. split; [done|]. intros fr face.
    unfold toughness_check. rewrite Hmin. split; [apply Hacc|].
    by intros ->.
  - intros hi field. unfold range_check.
    destruct field as [s|]; [|done].
    destruct (negb (truthy_str (Some s)) || negb (isnumeric s)); [done|].
    destruct (int_of_str s) as [v|e] eqn:Hv; [|done]. simpl.
    destruct (int_of_str_decimal s v Hv) as [_ Hpos].
    f_equal. f_equal. rewrite Hne. simpl. rewrite Hne.
    transitivity true; [|symmetry]; apply Z.leb_le; lia.
Qed.

Lemma negative_min_adds_no_lower_bound_witness :
  -3 < 0 /\ power_min power_m3_4 = Some (-3) /\
  (exists cs,
     criteria (from_args power_m3_4) = Some cs /\
     In (power_check power_m3_4 (final_frame power_m3_4)) cs /\
     forall fr face,
       (power_check power_m3_4 fr face = Ok true <->
        exists s v, power face = Some s /\ isnumeric s = true /\
                    int_of_str s = Ok v /\
                    v <= or_default (power_max power_m3_4) 9999) /\
       (power face = None -> power_check power_m3_4 fr face = Ok false)) /\
  match_ (from_args power_m3_4) forest = Ok false.
Proof.
  assert (H : -3 < 0) by lia.
  split; [exact H|]. split; [reflexivity|]. split.
  - exact (proj1 (negative_min_adds_no_lower_bound power_m3_4 (-3) H)
                 eq_refl).
  - reflexivity.
Defined.

(** X15: for bounds that [float] converts exactly (below 2^53 in absolute
    value), the mana-cost check accepts a Face exactly when its cost is a
    finite number other than zero that lies between the minimum (0 when
    absent or 0) and the maximum (9999 when absent or 0); an absent cost,
    a cost of zero, NaN and the infinities are not accepted. *)
Theorem mana_cost_acceptance (args : Args) (fr : Frame) (face : Face) :
  exact_bounds args ->
  returns (cmc_check args fr face) /\
  (cmc_check args fr face = Ok true <->
   exists q, convertedManaCost face = Some (Finite q) /\ ~ (q == 0)%Q /\
             (inject_Z (or_default (cmc_min args) 0) <= q)%Q /\
             (q <= inject_Z (or_default (cmc_max args) 9999))%Q).
Proof.
  intros [Hlo Hhi]. split; [|by apply cmc_check_true].
  unfold cmc_check. rewrite !cmc_bound_exact by done. simpl.
  destruct (convertedManaCost face) as [x|]; [|eauto].
  destruct (negb (truthy_number (Some x))); eauto.
Qed.

Lemma mana_cost_acceptance_witness :
  exact_bounds cmc_1_3 /\
  returns (cmc_check cmc_1_3 (final_frame cmc_1_3) bear) /\
  (cmc_check cmc_1_3 (final_frame cmc_1_3) bear = Ok true <->
   exists q, convertedManaCost bear = Some (Finite q) /\ ~ (q == 0)%Q /\
             (inject_Z (or_default (cmc_min cmc_1_3) 0) <= q)%Q /\
             (q <= inject_Z (or_default (cmc_max cmc_1_3) 9999))%Q).
Proof.
  assert (H : exact_bounds cmc_1_3) by (split; reflexivity).
  split; [exact H|].
  exact (mana_cost_acceptance cmc_1_3 (final_frame cmc_1_3) bear H).
Defined.

(** ** A bound beyond the doubles *)

Lemma float_of_int_overflow (n : Z) :
  2 ^ 1024 <= Z.abs n -> float_of_int n = Raise OverflowError.
Proof.
  intros Hn. unfold float_of_int.
  set (a := Z.abs n) in *. set (B := 2 ^ 1024) in *.
  assert (HB : 0 < B) by (unfold B; by apply Z.pow_pos_nonneg).
  assert (Ha : 0 < a) by lia.
  assert (HL : 1024 <= Z.log2 a).
  { replace 1024 with (Z.log2 B) by (unfold B; by apply Z.log2_pow2).
    by apply Z.log2_le_mono. }
  set (L := Z.log2 a) in *.
  destruct (Z.log2_spec a Ha) as [Hlow _]. fold L in Hlow.
  assert ((L - 52 <=? 0) = false) as -> by (apply Z.leb_gt; lia).
  set (e := L - 52).
  assert (He : 0 <= e) by (unfold e; lia).
  set (q := Z.shiftr a e).
  assert (Hq : 2 ^ 52 <= q).
  { unfold q. rewrite Z.shiftr_div_pow2 by done.
    replace (2 ^ 52) with (2 ^ L / 2 ^ e).
    - apply Z.div_le_mono; [by apply Z.pow_pos_nonneg|done].
    - replace L with (52 + e) by (unfold e; lia).
      rewrite Z.pow_add_r by lia. apply Z.div_mul.
      apply Z.pow_nonzero; lia. }
  match goal with |- context [Z.shiftl ?x e] => set (q' := x) end.
  assert (Hq' : q <= q') by (unfold q'; case_match; lia).
  assert (Hv : B <= Z.shiftl q' e).
  { rewrite Z.shiftl_mul_pow2 by done.
    assert (B <= 2 ^ L) by (unfold B; apply Z.pow_le_mono_r; lia).
    assert (2 ^ L = 2 ^ 52 * 2 ^ e) as HLe.
    { replace L with (52 + e) by (unfold e; lia).
      by rewrite Z.pow_add_r by lia. }
    assert (0 < 2 ^ e) by (by apply Z.pow_pos_nonneg).
    nia. }
  by apply Z.leb_le in Hv as ->.
Qed.

Lemma cmc_bound_Ok_or_overflow (o : option Z) (d : Z) :
  (exists v, cmc_bound o d = Ok v) \/ cmc_bound o d = Raise OverflowError.
Proof.
  unfold cmc_bound, float_of_int. repeat case_match; eauto.
Qed.

(** X16: a mana-cost bound, minimum or maximum, of 2^1024 or more in
    absolute value makes the mana-cost check raise [OverflowError] on every
    Face, a Face without any cost included: the bounds are converted
    before the cost is looked at. *)
Theorem huge_cmc_bound_raises (args : Args) (fr : Frame) (face : Face)
    (n : Z) :
  2 ^ 1024 <= Z.abs n ->
  (cmc_min args = Some n -> cmc_check args fr face = Raise OverflowError) /\
  (cmc_max args = Some n -> cmc_check args fr face = Raise OverflowError).
Proof.
  intros Hn.
  assert (Hne : (n =? 0) = false).
  { apply Z.eqb_neq. intros ->.
    assert (0 < 2 ^ 1024) by (by apply Z.pow_pos_nonneg). simpl in Hn. lia. }
  assert (Hraise : forall d, cmc_bound (Some n) d = Raise OverflowError).
  { intros d. unfold cmc_bound. simpl. rewrite Hne. simpl.
    by apply float_of_int_overflow. }
  split.
  - intros Hmin. unfold cmc_check. by rewrite Hmin, Hraise.
  - intros Hmax. unfold cmc_check. rewrite Hmax, Hraise.
    by destruct (cmc_bound_Ok_or_overflow (cmc_min args) 0) as [[lo ->]| ->].
Qed.

Lemma huge_cmc_bound_raises_witness :
  2 ^ 1024 <= Z.abs (2 ^ 1024) /\
  cmc_check (mkArgs None None None None None None None None
                    (Some (2 ^ 1024)) None)
            (mkFrame None None) forest
  = Raise OverflowError /\
  cmc_check (mkArgs None None None None None None None None
                    (Some (2 ^ 60)) (Some (2 ^ 1024)))
            (mkFrame None None) forest
  = Raise OverflowError.
Proof.
  assert (H : 2 ^ 1024 <= Z.abs (2 ^ 1024)) by (vm_compute; discriminate).
  split; [exact H|]. split.
  - exact (proj1 (huge_cmc_bound_raises
                    (mkArgs None None None None None None None None
                            (Some (2 ^ 1024)) None)
                    (mkFrame None None) forest (2 ^ 1024) H) eq_refl).
  - exact (proj2 (huge_cmc_bound_raises
                    (mkArgs None None None None None None None None
                            (Some (2 ^ 60)) (Some (2 ^ 1024)))
                    (mkFrame None None) forest (2 ^ 1024) H) eq_refl).
Defined.

(** ** The Criterion Set that [from_args] stores *)

(** X17: the Criterion Set is never an empty list: it is [None] exactly
    when no guard of [from_args] holds, and otherwise a list of as many
    predicates as guards hold, between one and seven. *)
Theorem criteria_none_or_non_empty (args : Args) :
  criteria (from_args args) <> Some [] /\
  (criteria (from_args args) = None <-> forall c, active args c = false) /\
  (forall cs, criteria (from_args args) = Some cs ->
     length cs = length (List.filter (active args) categories) /\
     (1 <= length cs <= 7)%nat).
Proof.
  rewrite criteria_from_args.
  pose proof (length_built args) as Hlen.
  assert (Hle : (length (List.filter (active args) categories) <= 7)%nat).
  { change 7%nat with (length categories). apply filter_length_le. }
  split; [|split].
  - by destruct (built (build args)).
  - split.
    + intros H c. destruct (built (build args)) eqn:E; [|discriminate].
      destruct (active args c) eqn:Hc; [|done].
      assert (Hnil : List.filter (active args) categories = []).
      { apply length_zero_iff_nil. by rewrite <- Hlen. }
      assert (In c (List.filter (active args) categories)) as Hin.
      { apply filter_In. split; [by destruct c; simpl; auto 10|done]. }
      by rewrite Hnil in Hin.
    + intros H. by rewrite inactive_built.
  - intros cs. destruct (built (build args)) as [|cl cls] eqn:E; [discriminate|].
    assert (Hl : length (map (fun c0 : Closure => c0 (final_frame args))
                            (cl :: cls))
                 = length (List.filter (active args) categories)).
    { rewrite length_map. exact Hlen. }
    intros [= <-]. split; [exact Hl|].
    rewrite <- Hl in Hle. split; [simpl; lia|exact Hle].
Qed.

(** ** Option values are sets *)

Lemma set_le_proper (xs xs' ys ys' : list string) :
  (list_to_set xs : gset string) = list_to_set xs' ->
  (list_to_set ys : gset string) = list_to_set ys' ->
  set_le xs ys = set_le xs' ys'.
Proof. intros H1 H2. unfold set_le. by rewrite H1, H2. Qed.

(** X18: repeating a value of a list option, or giving the values in
    another order, changes no predicate: each of the four set predicates
    returns the same for two value lists with the same elements. *)
Theorem option_values_are_sets (args args' : Args) (fr fr' : Frame)
    (face : Face) (xs xs' : list string) :
  (list_to_set xs : gset string) = list_to_set xs' ->
  (colors_all args = Some xs -> colors_all args' = Some xs' ->
   colors_all_check args fr face = colors_all_check args' fr face) /\
  (accepted fr = Some xs -> accepted fr' = Some xs' ->
   colors_only_check fr face = colors_only_check fr' face /\
   types_only_check fr face = types_only_check fr' face) /\
  (required fr = Some xs -> required fr' = Some xs' ->
   types_all_check fr face = types_all_check fr' face).
Proof.
  intros Hset. split; [|split].
  - intros H H'. unfold colors_all_check. rewrite H, H'. simpl.
    destruct (colors face) as [cs|]; simpl; [|done].
    f_equal. by apply set_le_proper.
  - intros H H'. unfold colors_only_check, types_only_check.
    rewrite H, H'. split.
    + destruct (colors face) as [cs|]; simpl; [|done].
      f_equal. by apply set_le_proper.
    + destruct (types face) as [ts|]; simpl; [|done].
      f_equal. by apply set_le_proper.
  - intros H H'. unfold types_all_check. rewrite H, H'. simpl.
    destruct (types face) as [ts|]; simpl; [|done].
    f_equal. by apply set_le_proper.
Qed.

Lemma option_values_are_sets_witness :
  (list_to_set ["G"; "R"; "R"] : gset string) = list_to_set ["R"; "G"] /\
  colors_all green_red_red = Some ["G"; "R"; "R"] /\
  colors_all red_green = Some ["R"; "G"] /\
  colors_all_check green_red_red (final_frame green_red_red) bear
  = colors_all_check red_green (final_frame green_red_red) bear.
Proof.
  assert (H : (list_to_set ["G"; "R"; "R"] : gset string)
              = list_to_set ["R"; "G"]) by compute_done.
  split; [exact H|]. split; [reflexivity|]. split; [reflexivity|].
  exact (proj1 (option_values_are_sets green_red_red red_green
                  (final_frame green_red_red) (final_frame green_red_red)
                  bear _ _ H) eq_refl eq_refl).
Defined.

(** ** Well-formed data *)

(** X19: with one guard of [from_args] true at least, mana-cost bounds
    below 2^53 in absolute value, and faces that all have the [colors] and
    [types] keys and a power and toughness that, whenever they are
    numeric, are decimal with at most 4300 digits, [filter] raises
    nothing: it returns the cards on which [matches] is true. *)
Theorem filter_returns_on_well_formed (args : Args) (card_dict : CardDict) :
  (exists c, active args c = true) -> exact_bounds args ->
  Forall (fun e => Forall well_formed (snd e)) card_dict ->
  filter (from_args args) card_dict
  = Ok (List.filter (kept (from_args args)) card_dict).
Proof.
  intros Hc Hex Hwf. apply filter_returns.
  eapply Forall_impl; [exact Hwf|]. intros [name faces] Hfaces. simpl in *.
  assert (Hret : Forall (fun face => returns (match_ (from_args args) face))
                        faces).
  { eapply Forall_impl; [exact Hfaces|]. intros face Hface.
    by apply match_returns. }
  destruct (matches_returns (from_args args) faces Hret) as (b & Hb & _).
  by exists b.
Qed.

Lemma filter_returns_on_well_formed_witness :
  (exists c, active red_power_2_4 c = true) /\ exact_bounds red_power_2_4 /\
  Forall (fun e : string * list Face => Forall well_formed (snd e))
         [("Forest", [forest]); ("Bear", [bear])] /\
  filter (from_args red_power_2_4) [("Forest", [forest]); ("Bear", [bear])]
  = Ok (List.filter (kept (from_args red_power_2_4))
                    [("Forest", [forest]); ("Bear", [bear])]).
Proof.
  assert (H1 : exists c, active red_power_2_4 c = true)
    by (exists RequiredColors; reflexivity).
  assert (H2 : exact_bounds red_power_2_4) by (split; reflexivity).
  assert (H3 : Forall (fun e : string * list Face => Forall well_formed (snd e))
                      [("Forest", [forest]); ("Bear", [bear])]).
  { assert (Hf : well_formed forest).
    { split; [by eexists|]. split; [by eexists|].
      split; intros s Hs; discriminate. }
    assert (Hb : well_formed bear).
    { split; [by eexists|]. split; [by eexists|].
      split; intros s [= <-] _;
        (split; [reflexivity|unfold int_max_str_digits; simpl; lia]). }
    constructor; [constructor; [exact Hf|constructor]|].
    constructor; [constructor; [exact Hb|constructor]|constructor]. }
  split; [exact H1|]. split; [exact H2|]. split; [exact H3|].
  exact (filter_returns_on_well_formed _ _ H1 H2 H3).
Defined.

(** X20: every card that [filter] returns has a face that matches; in
    particular no card without faces is ever returned. *)
Theorem filter_output_has_matching_face (self : CardFilter)
    (card_dict out : CardDict) :
  filter self card_dict = Ok out ->
  Forall (fun e => Exists (fun face => match_ self face = Ok true) (snd e) /\
                   snd e <> []) out.
Proof.
  intros H. pose proof (filter_Ok_inv _ _ _ H) as Hret.
  rewrite (filter_returns _ _ Hret) in H. injection H as <-.
  apply Forall_forall. intros [name faces] Hin.
  apply list_elem_of_In, filter_In in Hin as [_ Hk].
  unfold kept in Hk. simpl in *.
  destruct (matches self faces) as [[]|] eqn:Hm; try discriminate.
  split; [by apply matches_true_inv|].
  intros ->. discriminate.
Qed.

Lemma filter_output_has_matching_face_witness :
  filter (from_args red_power_2_4)
         [("Forest", [forest]); ("Void", []); ("Bear", [bear])]
  = Ok [("Bear", [bear])] /\
  Forall (fun e : string * list Face =>
            Exists (fun face => match_ (from_args red_power_2_4) face = Ok true)
                   (snd e) /\ snd e <> [])
         [("Bear", [bear])].
Proof.
  assert (H : filter (from_args red_power_2_4)
                [("Forest", [forest]); ("Void", []); ("Bear", [bear])]
              = Ok [("Bear", [bear])]) by reflexivity.
  split; [exact H|]. exact (filter_output_has_matching_face _ _ _ H).
Defined.
